(** * steemgosdk: a shallow embedding of the SDK's signed-call, block-range
      and transaction-preparation paths, with the properties checked on it.

    Layout.
    - [Go]: the pieces of the Go runtime the code relies on (fixed-width
      integers, [strings.HasPrefix], [time.Time], [pkg/errors] values,
      dynamically typed values).
    - [Externals]: the collaborators that live outside the repository
      (steemutil's rpc, jsonrpc2, transaction and wif packages, the clock,
      encoding/json), as a type class.
    - [Consts], [API], [Client], [SDK], [Broadcast], [BroadcastLIB], [Auth]:
      the repository's own code, one module per source file (revision).
    - the properties, after all definitions. *)

From Stdlib Require Import ZArith Lia Ascii String.
From stdpp Require Import base option list sorting strings gmap.

Set Warnings "-register-all".

Local Open Scope string_scope.
Local Open Scope Z_scope.
Local Open Scope list_scope.

(* ===================================================================== *)
(** ** Go runtime *)
(* ===================================================================== *)

Module Go.

(** Go's [int] and [uint] are 64 bits wide on the platforms the SDK
    targets; [uint32] and [uint16] are what they say.  *)
Definition wrap_int (x : Z) : Z := (x + 2 ^ 63) mod 2 ^ 64 - 2 ^ 63.
Definition wrap_uint32 (x : Z) : Z := x mod 2 ^ 32.
Definition wrap_uint16 (x : Z) : Z := x mod 2 ^ 16.

(** [strings.HasPrefix(s, prefix)]. *)
Definition HasPrefix (s prefix : string) : bool := String.prefix prefix s.

(** A value held in an [interface{}]: what [[]interface{}] parameter lists
    and [map[string]interface{}] objects are made of.  A struct is carried
    with its type name and its fields in declaration order. *)
Inductive Value : Type :=
| VNil
| VBool (b : bool)
| VInt (n : Z)
| VString (s : string)
| VSlice (l : list Value)
| VMap (m : gmap string Value)
| VStruct (type : string) (fields : list (string * Value)).

(** Error values as [github.com/pkg/errors] builds them. *)
Inductive error : Type :=
| New (msg : string)
| Errorf (format : string) (args : list Value)
| Wrap (cause : error) (msg : string)
| Wrapf (cause : error) (format : string) (args : list Value).

(** The usual Go result pair [(v, err)] with exactly one side set. *)
Inductive result (A : Type) : Type :=
| Ok (a : A)
| Err (e : error).
Arguments Ok {A} a.
Arguments Err {A} e.

(** [time.Time]: an instant (nanoseconds since the Unix epoch) shown in a
    location.  [time.Now()] is in [Local]; [t.UTC()] keeps the instant and
    switches the location. *)
Inductive Location : Type := UTC | Local.

Record Time : Type := mkTime { instant : Z; location : Location }.

Definition Second : Z := 1000000000.

Definition Time_UTC (t : Time) : Time :=
  {| instant := instant t; location := UTC |}.

Definition Time_Add (t : Time) (d : Z) : Time :=
  {| instant := instant t + d; location := location t |}.

End Go.
Export Go.

(* ===================================================================== *)
(** ** Data exchanged with the collaborators *)
(* ===================================================================== *)

(** [rpc.RpcRequest], as [API.SignedCall] fills it. *)
Record RpcRequest : Type := mkRpcRequest {
  Method : string;
  Params : list Value;
  ID : Z
}.

(** What [rpc.Sign] hands back; the SDK reads [signedRequest.Params.Signed]
    only. *)
Record SignedParams : Type := mkSignedParams { Signed : Value }.
Record SignedRequest : Type := mkSignedRequest { SignedReqParams : SignedParams }.

(** [protocolapi.RpcResultData]: [Error] is nil on success. *)
Record RpcResultData : Type := mkRpcResultData {
  Error : option Value;
  Result : Value
}.

(** [protocolapi.DynamicGlobalProperties], the fields the SDK reads. *)
Record DynamicGlobalProperties : Type := mkDGP {
  HeadBlockNumber : Z;
  HeadBlockId : string;
  LastIrreversibleBlockNum : Z
}.

(** [transaction.Transaction].  [Extensions] is a slice that may be nil:
    [None] is the nil slice, [Some []] the empty one.  [Expiration] is a
    pointer. *)
Record Transaction : Type := mkTransaction {
  RefBlockNum : Z;
  RefBlockPrefix : Z;
  Expiration : option Time;
  Operations : list Value;
  Extensions : option (list Value);
  Signatures : list string
}.

(** [transaction.SignedTransaction] embeds a [*Transaction]. *)
Record SignedTransaction : Type := mkSignedTransaction { embedded : Transaction }.

(** A transaction as it sits in a [[]interface{}] parameter list. *)
Definition Time_any (t : Time) : Value :=
  VStruct "Time" [("instant", VInt (instant t));
                  ("location", VString (match location t with UTC => "UTC" | Local => "Local" end))].

Definition Transaction_any (t : Transaction) : Value :=
  VStruct "Transaction"
    [("RefBlockNum", VInt (RefBlockNum t));
     ("RefBlockPrefix", VInt (RefBlockPrefix t));
     ("Expiration", match Expiration t with Some e => Time_any e | None => VNil end);
     ("Operations", VSlice (Operations t));
     ("Extensions", match Extensions t with Some l => VSlice l | None => VNil end);
     ("Signatures", VSlice (VString <$> Signatures t))].

Definition SignedTransaction_any (tx : SignedTransaction) : Value :=
  VStruct "SignedTransaction" [("Transaction", Transaction_any (embedded tx))].

(** What happened outside the process so far: every [rpc.Sign] call (the
    signed-call crypto) and every HTTP request a jsonrpc2 client posted,
    oldest first.  The collaborators' answers may depend on it. *)
Inductive Event : Type :=
| EvRpcSign (request : RpcRequest) (account : string) (keys : list string)
| EvHttp (url : string) (data : option (string * list Value)).

Definition World : Type := list Event.

(** A computation that talks to the outside. *)
Definition IO (A : Type) : Type := World → A * World.

(* ===================================================================== *)
(** ** Collaborators outside the repository *)
(* ===================================================================== *)

(** steemutil (rpc, jsonrpc2, transaction, wif), encoding/json, the clock
    and the process environment.  Their code is not part of the SDK; the
    laws are the contracts the SDK relies on. *)
Class Externals : Type := {
  (* steemutil/wif *)
  PrivateKey : Type;
  FromWif : string → result PrivateKey;
  ToWif : PrivateKey → string;
  (* steemutil/rpc: Sign(request, account, keys) *)
  rpc_Sign : World → RpcRequest → string → list string → result SignedRequest;
  (* steemutil/jsonrpc2: encoding a request, posting it *)
  jsonrpc2_encode : string → list Value → option error;
  jsonrpc2_post : World → string → option (string * list Value) → result RpcResultData;
  (* encoding/json *)
  json_Marshal : Value → result string;
  json_Unmarshal : string → result Value;
  json_MarshalIndent : Value → result string;
  (* steemutil/protocol/api: decoding into the typed structs *)
  ApiBlock : Type;
  Previous : ApiBlock → string;
  decode_DynamicGlobalProperties : string → DynamicGlobalProperties;
  decode_Block : string → ApiBlock;
  (* time.Now() and os.Getenv *)
  clock : World → Z;
  Getenv : string → string;
  (* steemutil/transaction *)
  Chain : Type;
  SteemChain : Chain;
  transaction_RefBlockNum : Z → Z;
  transaction_RefBlockPrefix : string → result Z;
  NewSignedTransaction : Transaction → SignedTransaction;
  PushOperation : SignedTransaction → Value → SignedTransaction;
  Serialize : SignedTransaction → result string;
  Digest : SignedTransaction → Chain → result string;
  signature : Chain → Transaction → PrivateKey → string;
  tx_Sign : SignedTransaction → list PrivateKey → Chain → result SignedTransaction;
  (* contracts *)
  RefBlockNum_low16 : ∀ n, transaction_RefBlockNum n = wrap_uint16 n;
  NewSignedTransaction_wraps : ∀ t,
    Expiration t ≠ None → NewSignedTransaction t = mkSignedTransaction t;
  PushOperation_appends : ∀ tx op,
    PushOperation tx op =
      mkSignedTransaction
        (mkTransaction (RefBlockNum (embedded tx)) (RefBlockPrefix (embedded tx))
           (Expiration (embedded tx)) (Operations (embedded tx) ++ [op])
           (Extensions (embedded tx)) (Signatures (embedded tx)));
  tx_Sign_in_order : ∀ tx keys chain tx',
    tx_Sign tx keys chain = Ok tx' →
    tx' = mkSignedTransaction
        (mkTransaction (RefBlockNum (embedded tx)) (RefBlockPrefix (embedded tx))
           (Expiration (embedded tx)) (Operations (embedded tx))
           (Extensions (embedded tx))
           (Signatures (embedded tx) ++ (signature chain (embedded tx) <$> keys)))
}.

(** [time.Now()]. *)
Definition time_Now `{Externals} (w : World) : Time :=
  {| instant := clock w; location := Local |}.

(* ===================================================================== *)
(** ** steemutil/jsonrpc2 client object *)
(* ===================================================================== *)

Module jsonrpc2.
Section jsonrpc2.
Context `{Externals}.

Record JsonRpc : Type := mkJsonRpc {
  Url : string;
  SendData : option (string * list Value)
}.

Definition NewClient (url : string) : JsonRpc :=
  {| Url := url; SendData := None |}.

(** [rpc.BuildSendData(method, params)]: on success the encoded request is
    kept in the client. *)
Definition BuildSendData (rpc : JsonRpc) (method : string) (params : list Value)
  : option error * JsonRpc :=
  match jsonrpc2_encode method params with
  | Some err => (Some err, rpc)
  | None => (None, {| Url := Url rpc; SendData := Some (method, params) |})
  end.

(** [rpc.Send()]: posts what [BuildSendData] prepared. *)
Definition Send (rpc : JsonRpc) : IO (result RpcResultData) :=
  λ w, (jsonrpc2_post w (Url rpc) (SendData rpc),
        w ++ [EvHttp (Url rpc) (SendData rpc)]).

End jsonrpc2.
End jsonrpc2.

(* ===================================================================== *)
(** ** api/api.go *)
(* ===================================================================== *)

(** How a call that may crash or wait for ever ends: it returns, it
    panics (nil pointer dereference), or it stays blocked on a channel
    receive that no goroutine will ever serve. *)
Inductive outcome (A : Type) : Type :=
| Returned (a : A)
| Panicked
| Blocked.
Arguments Returned {A} a.
Arguments Panicked {A}.
Arguments Blocked {A}.

(** *** Block ranges.

    [GetBlocks] starts one goroutine per block number and collects one
    message per goroutine from a buffered channel.  The goroutines call
    [GetBlock] concurrently, so their requests have no single order: the
    range fetch is modelled over [fetch n k], the outcome of the [k]-th
    [GetBlock(n)] call made by the goroutine of block [n], and over the order
    in which the channel delivers the goroutines' messages.

    api/api.go and client/client.go carry the same [WrapBlock] and the same
    [GetBlocks] body; they differ in [wrapGetBlock]. *)
Module Blocks.
Section Blocks.
Context `{Externals}.

Record WrapBlock : Type := mkWrapBlock {
  BlockNum : Z;
  Block : option ApiBlock
}.

(** [blocksMap[k]]: nil when the key is missing. *)
Definition blocksMap_get (blocksMap : gmap Z (option WrapBlock)) (k : Z)
  : option WrapBlock :=
  default None (blocksMap !! k).

(** The "get results" loop: [n] receives from the channel [ch].  It ends
    with the filled map, or with the early [return blocks, err]. *)
Fixpoint receive (n : nat) (ch : list (option WrapBlock))
    (blocksMap : gmap Z (option WrapBlock))
  : outcome (gmap Z (option WrapBlock) + error) :=
  match n with
  | O => Returned (inl blocksMap)
  | S n =>
    match ch with
    | [] => Blocked
    | result :: ch =>
      match result with
      | None => Panicked   (* result.BlockNum with result == nil *)
      | Some r =>
        let blocksMap := <[BlockNum r := result]> blocksMap in
        match blocksMap_get blocksMap (BlockNum r) with
        | None => Returned (inr (Errorf "get block {%v} error\n" [VInt (BlockNum r)]))
        | Some _ => receive n ch blocksMap
        end
      end
    end
  end.

(** [GetBlocks(from, to)], with [ch] the messages in the order the channel
    delivers them. *)
Definition GetBlocks (from to : Z) (ch : list (option WrapBlock))
  : outcome (list (option WrapBlock) * option error) :=
  if from >=? to then
    Returned ([], Some (Errorf "unexpected params {from: %v}, {to: %v}\n"
                               [VInt from; VInt to]))
  else
    match receive (Z.to_nat (to - from)) ch ∅ with
    | Panicked => Panicked
    | Blocked => Blocked
    | Returned (inr err) => Returned ([], Some err)
    | Returned (inl blocksMap) =>
      Returned (blocksMap_get blocksMap <$> seqZ from (to - from), None)
    end.

End Blocks.
End Blocks.

Module API.
Section API.
Context `{Externals}.

Record API : Type := mkAPI {
  url : string;
  maxRetry : Z;
  seqNo : Z
}.

Definition NewAPI (url : string) : API :=
  {| url := url; maxRetry := 5; seqNo := 0 |}.

Definition SetMaxRetry (a : API) (maxRetry : Z) : API :=
  {| url := url a; maxRetry := maxRetry; seqNo := seqNo a |}.

Definition validateTransportForSignedCall (a : API) : option error :=
  if negb (HasPrefix (url a) "http://") && negb (HasPrefix (url a) "https://")
  then Some (New "signed calls can only be made when using HTTP transport")
  else None.

(** [SignedCall] returns its result, the receiver as the call leaves it
    ([a.seqNo++] mutates it) and the world. *)
Definition SignedCall (a : API) (method : string) (params : list Value)
    (account privateKey : string) (w : World)
  : result RpcResultData * API * World :=
  match validateTransportForSignedCall a with
  | Some err => (Err err, a, w)
  | None =>
    let a := {| url := url a; maxRetry := maxRetry a;
                seqNo := wrap_int (seqNo a + 1) |} in
    let request := {| Method := method; Params := params; ID := seqNo a |} in
    let signed := rpc_Sign w request account [privateKey] in
    let w := w ++ [EvRpcSign request account [privateKey]] in
    match signed with
    | Err err =>
      (Err (Wrapf err "failed to sign request for method %s" [VString method]), a, w)
    | Ok signedRequest =>
      let rpcClient := jsonrpc2.NewClient (url a) in
      let signedParams :=
        VMap {[ "__signed" := Signed (SignedReqParams signedRequest) ]} in
      match jsonrpc2.BuildSendData rpcClient method [signedParams] with
      | (Some err, _) =>
        (Err (Wrapf err "failed to build signed RPC data for %s" [VString method]), a, w)
      | (None, rpcClient) =>
        match jsonrpc2.Send rpcClient w with
        | (Err err, w) =>
          (Err (Wrapf err "failed to send signed RPC request for %s" [VString method]), a, w)
        | (Ok rpcResponse, w) =>
          match Error rpcResponse with
          | Some e =>
            (Err (Errorf "signed RPC error for %s: %v" [VString method; e]), a, w)
          | None => (Ok rpcResponse, a, w)
          end
        end
      end
    end
  end.

(** [SignedCallWithResult]: the decoded value stands for what
    [json.Unmarshal] writes through the [result] pointer. *)
Definition SignedCallWithResult (a : API) (method : string) (params : list Value)
    (account privateKey : string) (w : World)
  : result Value * API * World :=
  match SignedCall a method params account privateKey w with
  | (Err err, a, w) => (Err err, a, w)
  | (Ok rpcResponse, a, w) =>
    match json_Marshal (Result rpcResponse) with
    | Err err =>
      (Err (Wrapf err "failed to marshal signed RPC result for %s" [VString method]), a, w)
    | Ok resultBytes =>
      match json_Unmarshal resultBytes with
      | Err err =>
        (Err (Wrapf err "failed to unmarshal signed RPC result for %s" [VString method]), a, w)
      | Ok v => (Ok v, a, w)
      end
    end
  end.

Definition GetDynamicGlobalProperties (a : API) : IO (result DynamicGlobalProperties) :=
  λ w,
  let rpc := jsonrpc2.NewClient (url a) in
  match jsonrpc2.BuildSendData rpc "condenser_api.get_dynamic_global_properties" [] with
  | (Some err, _) => (Err err, w)
  | (None, rpc) =>
    match jsonrpc2.Send rpc w with
    | (Err err, w) => (Err err, w)
    | (Ok rpcResponse, w) =>
      match Error rpcResponse with
      | Some e => (Err (Errorf "failed to GetDynamicGlobalProperties:%v\n" [e]), w)
      | None =>
        match json_Marshal (Result rpcResponse) with
        | Err err => (Err err, w)
        | Ok tmp => (Ok (decode_DynamicGlobalProperties tmp), w)
        end
      end
    end
  end.

Definition GetBlock (a : API) (blockNum : Z) : IO (result ApiBlock) :=
  λ w,
  let rpc := jsonrpc2.NewClient (url a) in
  match jsonrpc2.BuildSendData rpc "condenser_api.get_block" [VInt blockNum] with
  | (Some err, _) => (Err err, w)
  | (None, rpc) =>
    match jsonrpc2.Send rpc w with
    | (Err err, w) => (Err err, w)
    | (Ok rpcResponse, w) =>
      match Error rpcResponse with
      | Some e => (Err (Errorf "failed to GetBlock:%v\n" [e]), w)
      | None =>
        match json_Marshal (Result rpcResponse) with
        | Err err => (Err err, w)
        | Ok tmp => (Ok (decode_Block tmp), w)
        end
      end
    end
  end.

(** [Call(apiName, method, params)]; [fullMethod] is
    [fmt.Sprintf("%s.%s", apiName, method)]. *)
Definition Call (a : API) (apiName method : string) (params : list Value)
  : IO (result RpcResultData) :=
  λ w,
  let rpc := jsonrpc2.NewClient (url a) in
  let fullMethod := apiName +:+ "." +:+ method in
  match jsonrpc2.BuildSendData rpc fullMethod params with
  | (Some err, _) =>
    (Err (Wrapf err "failed to build RPC data for %s" [VString fullMethod]), w)
  | (None, rpc) =>
    match jsonrpc2.Send rpc w with
    | (Err err, w) =>
      (Err (Wrapf err "failed to send RPC request for %s" [VString fullMethod]), w)
    | (Ok rpcResponse, w) =>
      match Error rpcResponse with
      | Some e => (Err (Errorf "RPC error for %s: %v" [VString fullMethod; e]), w)
      | None => (Ok rpcResponse, w)
      end
    end
  end.

(** [CallWithResult]: the decoded value stands for what [json.Unmarshal]
    writes through the [result] pointer. *)
Definition CallWithResult (a : API) (apiName method : string) (params : list Value)
  : IO (result Value) :=
  λ w,
  match Call a apiName method params w with
  | (Err err, w) => (Err err, w)
  | (Ok rpcResponse, w) =>
    match json_Marshal (Result rpcResponse) with
    | Err err => (Err (Wrap err "failed to marshal RPC result"), w)
    | Ok tmp =>
      match json_Unmarshal tmp with
      | Err err => (Err (Wrap err "failed to unmarshal RPC result"), w)
      | Ok v => (Ok v, w)
      end
    end
  end.

(** [GetTransactionHex(tx)]: the parameter is [tx.Transaction], the
    embedded transaction. *)
Definition GetTransactionHex (a : API) (tx : SignedTransaction) : IO (result Value) :=
  λ w,
  let rpc := jsonrpc2.NewClient (url a) in
  match jsonrpc2.BuildSendData rpc "condenser_api.get_transaction_hex"
          [Transaction_any (embedded tx)] with
  | (Some err, _) => (Err err, w)
  | (None, rpc) =>
    match jsonrpc2.Send rpc w with
    | (Err err, w) => (Err err, w)
    | (Ok rpcResponse, w) =>
      match Error rpcResponse with
      | Some e => (Err (Errorf "failed to GetTransactionHex:%v\n" [e]), w)
      | None => (Ok (Result rpcResponse), w)
      end
    end
  end.

(** *** Block ranges (see [Blocks]). *)
Section Range.
Variable fetch : Z → nat → result ApiBlock.

(** [wrapGetBlock]: retries without bound, then sends.  [fuel] bounds the
    number of attempts looked at; [None] means the goroutine is still
    retrying and has sent nothing. *)
Fixpoint wrapGetBlock_from (blockNum : Z) (attempt fuel : nat)
  : option (option Blocks.WrapBlock) :=
  match fuel with
  | O => None
  | S fuel =>
    match fetch blockNum attempt with
    | Ok block =>
      Some (Some {| Blocks.BlockNum := blockNum; Blocks.Block := Some block |})
    | Err _ => wrapGetBlock_from blockNum (S attempt) fuel
    end
  end.

Definition wrapGetBlock (fuel : nat) (blockNum : Z) : option (option Blocks.WrapBlock) :=
  wrapGetBlock_from blockNum 0 fuel.

(** The messages the goroutines of [from, to) have put on the channel. *)
Definition sent (fuel : nat) (from to : Z) : list (option Blocks.WrapBlock) :=
  omap (wrapGetBlock fuel) (seqZ from (to - from)).

Definition GetBlocks (from to : Z) (ch : list (option Blocks.WrapBlock))
  : outcome (list (option Blocks.WrapBlock) * option error) :=
  Blocks.GetBlocks from to ch.

End Range.
End API.
End API.

(* ===================================================================== *)
(** ** consts *)
(* ===================================================================== *)

Module Consts.

(** Modelled from the spec: the key-role constants of the repository's
    [consts] package, which is not among the sources.  The spec fixes the
    closed set of roles as owner, active, posting and memo; docs/signed-call.md
    and client/client_test.go spell them the same way. *)
Definition ACTIVE_KEY : string := "active".
Definition POSTING_KEY : string := "posting".
Definition OWNER_KEY : string := "owner".
Definition MEMO_KEY : string := "memo".

End Consts.

(* ===================================================================== *)
(** ** client/client.go *)
(* ===================================================================== *)

Module Client.
Section Client.
Context `{Externals}.

Record Client : Type := mkClient {
  Url : string;
  MaxRetry : Z;
  AccountName : string;
  Wifs : gmap string PrivateKey
}.

Definition checkKeyType (keyType : string) : bool :=
  if decide (keyType = Consts.ACTIVE_KEY) then true
  else if decide (keyType = Consts.POSTING_KEY) then true
  else if decide (keyType = Consts.OWNER_KEY) then true
  else if decide (keyType = Consts.MEMO_KEY) then true
  else false.

Definition ImportWif (c : Client) (keyType privWif : string) : option error * Client :=
  if negb (checkKeyType keyType) then
    (Some (New "unexpected keyType when import wif\n"), c)
  else
    match FromWif privWif with
    | Err err => (Some err, c)
    | Ok priv =>
      (None, {| Url := Url c; MaxRetry := MaxRetry c; AccountName := AccountName c;
                Wifs := <[keyType := priv]> (Wifs c) |})
    end.

(** [GetAPI], as the revision with signed calls has it. *)
Definition GetAPI (c : Client) : API.API :=
  API.SetMaxRetry (API.NewAPI (Url c)) (MaxRetry c).

Definition SignedCall (c : Client) (method : string) (params : list Value)
    (keyType : string) : IO (result RpcResultData) :=
  λ w,
  if decide (AccountName c = "") then (Err (New "account name not set"), w)
  else if negb (checkKeyType keyType) then
    (Err (Errorf "invalid key type: %s" [VString keyType]), w)
  else
    match Wifs c !! keyType with
    | None => (Err (Errorf "private key for type '%s' not found" [VString keyType]), w)
    | Some privateKey =>
      let privateKeyWif := ToWif privateKey in
      let api := GetAPI c in
      let '(r, _, w) := API.SignedCall api method params (AccountName c) privateKeyWif w in
      (r, w)
    end.

Definition SignedCallWithResult (c : Client) (method : string) (params : list Value)
    (keyType : string) : IO (result Value) :=
  λ w,
  if decide (AccountName c = "") then (Err (New "account name not set"), w)
  else if negb (checkKeyType keyType) then
    (Err (Errorf "invalid key type: %s" [VString keyType]), w)
  else
    match Wifs c !! keyType with
    | None => (Err (Errorf "private key for type '%s' not found" [VString keyType]), w)
    | Some privateKey =>
      let privateKeyWif := ToWif privateKey in
      let api := GetAPI c in
      let '(r, _, w) :=
        API.SignedCallWithResult api method params (AccountName c) privateKeyWif w in
      (r, w)
    end.

(** *** The revision in which the client itself talks to the node. *)

Definition GetRpcClient (c : Client) : jsonrpc2.JsonRpc := jsonrpc2.NewClient (Url c).

Definition GetDynamicGlobalProperties (c : Client) : IO (result DynamicGlobalProperties) :=
  λ w,
  let rpc := GetRpcClient c in
  match jsonrpc2.BuildSendData rpc "condenser_api.get_dynamic_global_properties" [] with
  | (Some err, _) => (Err err, w)
  | (None, rpc) =>
    match jsonrpc2.Send rpc w with
    | (Err err, w) => (Err err, w)
    | (Ok rpcResponse, w) =>
      match Error rpcResponse with
      | Some e => (Err (Errorf "failed to GetDynamicGlobalProperties:%v\n" [e]), w)
      | None =>
        match json_Marshal (Result rpcResponse) with
        | Err err => (Err err, w)
        | Ok tmp => (Ok (decode_DynamicGlobalProperties tmp), w)
        end
      end
    end
  end.

Definition BroadcastSync (c : Client) (params : list Value) : IO (result string) :=
  λ w,
  let rpc := GetRpcClient c in
  match jsonrpc2.BuildSendData rpc "condenser_api.broadcast_transaction_synchronous" params with
  | (Some err, _) => (Err err, w)
  | (None, rpc) =>
    match jsonrpc2.Send rpc w with
    | (Err err, w) => (Err err, w)
    | (Ok rpcResponse, w) =>
      match Error rpcResponse with
      | Some e => (Err (Errorf "failed to broadcast:%v\n" [e]), w)
      | None => (json_Marshal (Result rpcResponse), w)
      end
    end
  end.

(** *** Block ranges (see [Blocks]). *)
Section Range.
Variable fetch : Z → nat → result ApiBlock.

(** The retry loop of [wrapGetBlock]: [n] iterations left, [attempt] calls
    made so far, [block] and [err] as the last call left them. *)
Fixpoint retry (blockNum : Z) (n attempt : nat) (block : option ApiBlock)
    (err : option error) : option ApiBlock * option error :=
  match n with
  | O => (block, err)
  | S n =>
    match fetch blockNum attempt with
    | Ok b => (Some b, None)
    | Err e => retry blockNum n (S attempt) None (Some e)
    end
  end.

(** [wrapGetBlock]: at most [c.MaxRetry] attempts; the value sent on the
    channel is nil when the last attempt failed. *)
Definition wrapGetBlock (c : Client) (blockNum : Z) : option Blocks.WrapBlock :=
  match retry blockNum (Z.to_nat (MaxRetry c)) 0 None None with
  | (_, Some _) => None
  | (block, None) => Some {| Blocks.BlockNum := blockNum; Blocks.Block := block |}
  end.

(** The messages the goroutines of [from, to) put on the channel. *)
Definition sent (c : Client) (from to : Z) : list (option Blocks.WrapBlock) :=
  wrapGetBlock c <$> seqZ from (to - from).

Definition GetBlocks (from to : Z) (ch : list (option Blocks.WrapBlock))
  : outcome (list (option Blocks.WrapBlock) * option error) :=
  Blocks.GetBlocks from to ch.

End Range.
End Client.
End Client.

(* ===================================================================== *)
(** ** The package's entry point *)
(* ===================================================================== *)

Module SDK.
Section SDK.
Context `{Externals}.

(** [GetClient(url)]: no account name, no keys. *)
Definition GetClient (url : string) : Client.Client :=
  {| Client.Url := url; Client.MaxRetry := 5;
     Client.AccountName := ""; Client.Wifs := ∅ |}.

End SDK.
End SDK.

(* ===================================================================== *)
(** ** broadcast/broadcast.go, the revision built on [ClientInterface] *)
(* ===================================================================== *)

Module Broadcast.
Section Broadcast.
Context `{Externals}.

(** [ClientInterface]: what [Broadcast] needs from its client. *)
Record ClientInterface : Type := mkClientInterface {
  GetDynamicGlobalProperties : IO (result DynamicGlobalProperties);
  BroadcastSync : list Value → IO (result string)
}.

Record Broadcast : Type := mkBroadcast {
  client : ClientInterface;
  url : string
}.

Definition NewBroadcast (client : ClientInterface) (url : string) : Broadcast :=
  {| client := client; url := url |}.

(** [*client.Client] implements the interface. *)
Definition Client_as_ClientInterface (c : Client.Client) : ClientInterface :=
  {| GetDynamicGlobalProperties := Client.GetDynamicGlobalProperties c;
     BroadcastSync := Client.BroadcastSync c |}.

Definition prepareTransaction (b : Broadcast) (ops : list Value)
  : IO (result SignedTransaction) :=
  λ w,
  if decide (length ops = 0%nat) then (Err (New "no operations provided"), w)
  else
    match GetDynamicGlobalProperties (client b) w with
    | (Err err, w) => (Err (Wrap err "failed to get dynamic global properties"), w)
    | (Ok dgp, w) =>
      let refBlockNum := transaction_RefBlockNum (HeadBlockNumber dgp) in
      match transaction_RefBlockPrefix (HeadBlockId dgp) with
      | Err err => (Err (Wrap err "failed to calculate ref_block_prefix"), w)
      | Ok refBlockPrefix =>
        let expiration := Time_Add (time_Now w) (600 * Second) in
        let tx := NewSignedTransaction
          {| RefBlockNum := refBlockNum;
             RefBlockPrefix := refBlockPrefix;
             Expiration := Some expiration;
             Operations := [];
             Extensions := None;
             Signatures := [] |} in
        (Ok (foldl PushOperation tx ops), w)
      end
    end.

(** The loop [for _, wifStr := range privKeys], over the entries in the
    order the range statement visits them. *)
Fixpoint decodeKeys (visit : list (string * string)) (privKeyObjs : list PrivateKey)
  : result (list PrivateKey) :=
  match visit with
  | [] => Ok privKeyObjs
  | (_, wifStr) :: visit =>
    match FromWif wifStr with
    | Err err => Err (Wrap err "failed to decode WIF")
    | Ok privKey => decodeKeys visit (privKeyObjs ++ [privKey])
    end
  end.

(** [Send(ops, privKeys)].  Go does not specify the order in which [range]
    visits a map; [visit] is the order of this execution, a permutation of
    the entries of [privKeys]. *)
Definition Send (b : Broadcast) (ops : list Value) (privKeys : gmap string string)
    (visit : list (string * string)) : IO (result string) :=
  λ w,
  match prepareTransaction b ops w with
  | (Err err, w) => (Err (Wrap err "failed to prepare transaction"), w)
  | (Ok tx, w) =>
    match decodeKeys visit [] with
    | Err err => (Err err, w)
    | Ok privKeyObjs =>
      match tx_Sign tx privKeyObjs SteemChain with
      | Err err => (Err (Wrap err "failed to sign transaction"), w)
      | Ok tx =>
        match BroadcastSync (client b) [SignedTransaction_any tx] w with
        | (Err err, w) => (Err (Wrap err "failed to broadcast transaction"), w)
        | (Ok result, w) => (Ok result, w)
        end
      end
    end
  end.

Definition SendWith (b : Broadcast) (op : Value) (privKeyWif : string)
  : IO (result string) :=
  Send b [op] {[ "key" := privKeyWif ]} [("key", privKeyWif)].

End Broadcast.
End Broadcast.

(* ===================================================================== *)
(** ** broadcast/broadcast.go, the revision that binds transactions to the
       last irreversible block *)
(* ===================================================================== *)

Module BroadcastLIB.
Section BroadcastLIB.
Context `{Externals}.

Record Broadcast : Type := mkBroadcast {
  url : string;
  rpc : jsonrpc2.JsonRpc;
  api : API.API
}.

Definition NewBroadcast (url : string) : Broadcast :=
  {| url := url; rpc := jsonrpc2.NewClient url; api := API.NewAPI url |}.

(** [BroadcastSync] works on the client object [b.rpc]; the receiver comes
    back with the request it last built. *)
Definition BroadcastSync (b : Broadcast) (params : list Value)
  : IO (result string * Broadcast) :=
  λ w,
  match jsonrpc2.BuildSendData (rpc b) "condenser_api.broadcast_transaction_synchronous" params with
  | (Some err, _) => ((Err err, b), w)
  | (None, rpc') =>
    let b := {| url := url b; rpc := rpc'; api := api b |} in
    match jsonrpc2.Send rpc' w with
    | (Err err, w) => ((Err err, b), w)
    | (Ok rpcResponse, w) =>
      match Error rpcResponse with
      | Some e => ((Err (Errorf "failed to broadcast:%v\n" [e]), b), w)
      | None => ((json_Marshal (Result rpcResponse), b), w)
      end
    end
  end.

Definition zeroBlockId : string := "0000000000000000000000000000000000000000".

Definition prepareTransaction (b : Broadcast) (ops : list Value)
  : IO (result SignedTransaction) :=
  λ w,
  if decide (length ops = 0%nat) then (Err (New "no operations provided"), w)
  else
    match API.GetDynamicGlobalProperties (api b) w with
    | (Err err, w) => (Err (Wrap err "failed to get dynamic global properties"), w)
    | (Ok dgp, w) =>
      let refBlockNum :=
        transaction_RefBlockNum
          (wrap_uint32 (Z.land (wrap_uint32 (LastIrreversibleBlockNum dgp - 1)) 0xFFFF)) in
      match API.GetBlock (api b) (LastIrreversibleBlockNum dgp) w with
      | (Err err, w) =>
        (Err (Wrap err "failed to get block for ref_block_prefix calculation"), w)
      | (Ok block, w) =>
        let previousBlockId := Previous block in
        let previousBlockId :=
          if decide (previousBlockId = "") then zeroBlockId else previousBlockId in
        match transaction_RefBlockPrefix previousBlockId with
        | Err err => (Err (Wrap err "failed to calculate ref_block_prefix"), w)
        | Ok refBlockPrefix =>
          let expiration := Time_Add (Time_UTC (time_Now w)) (600 * Second) in
          let tx := NewSignedTransaction
            {| RefBlockNum := refBlockNum;
               RefBlockPrefix := refBlockPrefix;
               Expiration := Some expiration;
               Operations := [];
               Extensions := Some [];
               Signatures := [] |} in
          (Ok (foldl PushOperation tx ops), w)
        end
      end
    end.

Fixpoint decodeKeys (visit : list (string * string)) (privKeyObjs : list PrivateKey)
  : result (list PrivateKey) :=
  match visit with
  | [] => Ok privKeyObjs
  | (_, wifStr) :: visit =>
    match FromWif wifStr with
    | Err err => Err (Wrap err "failed to decode WIF")
    | Ok privKey => decodeKeys visit (privKeyObjs ++ [privKey])
    end
  end.

(** The first [DEBUG] block of [Send]: it prints, and it can fail.  What
    goes to standard output is not modelled. *)
Definition debugDump (tx : SignedTransaction) : option error :=
  if decide (Getenv "DEBUG" = "") then None
  else
    match json_MarshalIndent (Transaction_any (embedded tx)) with
    | Err err => Some (Wrap err "failed to marshal transaction to JSON")
    | Ok _ =>
      match Serialize tx with
      | Err err => Some (Wrap err "failed to serialize transaction")
      | Ok _ =>
        match Digest tx SteemChain with
        | Err err => Some (Wrap err "failed to compute digest")
        | Ok _ => None
        end
      end
    end.

(** [Send(ops, privKeys)]; [visit] as in [Broadcast.Send].  The two later
    [DEBUG] blocks only print. *)
Definition Send (b : Broadcast) (ops : list Value) (privKeys : gmap string string)
    (visit : list (string * string)) : IO (result string * Broadcast) :=
  λ w,
  match prepareTransaction b ops w with
  | (Err err, w) => ((Err (Wrap err "failed to prepare transaction"), b), w)
  | (Ok tx, w) =>
    match debugDump tx with
    | Some err => ((Err err, b), w)
    | None =>
      match decodeKeys visit [] with
      | Err err => ((Err err, b), w)
      | Ok privKeyObjs =>
        match tx_Sign tx privKeyObjs SteemChain with
        | Err err => ((Err (Wrap err "failed to sign transaction"), b), w)
        | Ok tx =>
          match BroadcastSync b [SignedTransaction_any tx] w with
          | ((Err err, b), w) => ((Err (Wrap err "failed to broadcast transaction"), b), w)
          | ((Ok result, b), w) => ((Ok result, b), w)
          end
        end
      end
    end
  end.

Definition SendWith (b : Broadcast) (op : Value) (privKeyWif : string)
  : IO (result string * Broadcast) :=
  Send b [op] {[ "key" := privKeyWif ]} [("key", privKeyWif)].

(** [sort.Strings] on a fresh copy of the slice: increasing order, strings
    compared byte by byte. *)
Definition sort_Strings (l : list string) : list string := merge_sort String.le l.

(** [protocol.CustomJSONOperation], as it sits in an operation list. *)
Definition CustomJSONOperation (RequiredAuths RequiredPostingAuths : list string)
    (ID JSON : string) : Value :=
  VStruct "CustomJSONOperation"
    [("RequiredAuths", VSlice (VString <$> RequiredAuths));
     ("RequiredPostingAuths", VSlice (VString <$> RequiredPostingAuths));
     ("ID", VString ID);
     ("JSON", VString JSON)].

(** [CustomJson(requiredAuths, requiredPostingAuths, id, json, privKeyWif)].
    The key map has one entry, so [range] has one way to visit it. *)
Definition CustomJson (b : Broadcast) (requiredAuths requiredPostingAuths : list string)
    (id json privKeyWif : string) : IO (result string * Broadcast) :=
  let sortedRequiredAuths := sort_Strings requiredAuths in
  let sortedRequiredPostingAuths := sort_Strings requiredPostingAuths in
  let op := CustomJSONOperation sortedRequiredAuths sortedRequiredPostingAuths id json in
  let keyType := if decide (0 < length requiredAuths)%nat then "active" else "posting" in
  Send b [op] {[ keyType := privKeyWif ]} [(keyType, privKeyWif)].

End BroadcastLIB.
End BroadcastLIB.

(* ===================================================================== *)
(** ** auth/auth.go *)
(* ===================================================================== *)

Module Auth.
Section Auth.
Context `{Externals}.

(** The loop [for _, wifStr := range keys] of [SignTransaction]. *)
Fixpoint decodeKeys (visit : list (string * string)) (privKeys : list PrivateKey)
  : result (list PrivateKey) :=
  match visit with
  | [] => Ok privKeys
  | (_, wifStr) :: visit =>
    match FromWif wifStr with
    | Err err => Err (Wrap err "failed to decode WIF")
    | Ok privKey => decodeKeys visit (privKeys ++ [privKey])
    end
  end.


End Auth.
End Auth.

(* ===================================================================== *)
(** ** A concrete node and host, to run the code against *)
(* ===================================================================== *)

Module Sample.

(** The node's state and the host's environment. *)
Record Node : Type := mkNode {
  dgp : DynamicGlobalProperties;   (* what get_dynamic_global_properties reports *)
  previous : string;               (* the [previous] field of the blocks it serves *)
  reachable : bool;                (* does the node answer at all *)
  DEBUG : string                   (* the DEBUG environment variable *)
}.

(** WIF keys of the chain start with a 5. *)
Definition wif_decode (wifStr : string) : result string :=
  if HasPrefix wifStr "5" then Ok wifStr else Err (New "invalid WIF").

Definition sign_with (key : string) : string := "sig:" +:+ key.

Fixpoint all_wif (keys : list string) : bool :=
  match keys with
  | [] => true
  | k :: keys => HasPrefix k "5" && all_wif keys
  end.

Definition sign_request (w : World) (request : RpcRequest) (account : string)
    (keys : list string) : result SignedRequest :=
  if all_wif keys then
    Ok (mkSignedRequest (mkSignedParams
      (VStruct "Signed"
         [("account", VString account);
          ("nonce", VInt (Z.of_nat (length w)));
          ("params", VSlice (Params request));
          ("signatures", VSlice (VString ∘ sign_with <$> keys))])))
  else Err (New "invalid WIF").

Definition node_post (n : Node) (w : World) (url : string)
    (data : option (string * list Value)) : result RpcResultData :=
  if reachable n then
    match data with
    | Some ("condenser_api.get_block", _) =>
      Ok {| Error := None; Result := VString (previous n) |}
    | _ => Ok {| Error := None; Result := VString "ok" |}
    end
  else Err (New "connection refused").

Definition marshal (v : Value) : result string :=
  match v with
  | VString s => Ok s
  | _ => Ok "null"
  end.

(** Hexadecimal block ids: the prefix is the little-endian 32-bit number in
    bytes 4 to 7. *)
Definition hexDigit (c : ascii) : option Z :=
  let n := Z.of_nat (nat_of_ascii c) in
  if (48 <=? n) && (n <=? 57) then Some (n - 48)
  else if (97 <=? n) && (n <=? 102) then Some (n - 87)
  else None.

Fixpoint hexBytes (s : string) : option (list Z) :=
  match s with
  | EmptyString => Some []
  | String hi (String lo rest) =>
    match hexDigit hi, hexDigit lo, hexBytes rest with
    | Some h, Some l, Some bs => Some ((16 * h + l) :: bs)
    | _, _, _ => None
    end
  | String _ EmptyString => None
  end.

Definition block_prefix (blockId : string) : result Z :=
  match hexBytes blockId with
  | None => Err (Errorf "failed to decode block ID: %v" [VString blockId])
  | Some raw =>
    match drop 4 raw with
    | b0 :: b1 :: b2 :: b3 :: _ => Ok (b0 + 256 * b1 + 65536 * b2 + 16777216 * b3)
    | _ => Err (Errorf "invalid block ID: %v" [VString blockId])
    end
  end.

Definition push (tx : SignedTransaction) (op : Value) : SignedTransaction :=
  mkSignedTransaction
    (mkTransaction (RefBlockNum (embedded tx)) (RefBlockPrefix (embedded tx))
       (Expiration (embedded tx)) (Operations (embedded tx) ++ [op])
       (Extensions (embedded tx)) (Signatures (embedded tx))).

Definition sign_tx (tx : SignedTransaction) (keys : list string) (chain : unit)
  : result SignedTransaction :=
  Ok (mkSignedTransaction
    (mkTransaction (RefBlockNum (embedded tx)) (RefBlockPrefix (embedded tx))
       (Expiration (embedded tx)) (Operations (embedded tx))
       (Extensions (embedded tx))
       (Signatures (embedded tx) ++ (sign_with <$> keys)))).

#[export] Instance externals (n : Node) : Externals := {|
  PrivateKey := string;
  FromWif := wif_decode;
  ToWif := id;
  rpc_Sign := sign_request;
  jsonrpc2_encode := λ _ _, None;
  jsonrpc2_post := node_post n;
  json_Marshal := marshal;
  json_Unmarshal := λ s, Ok (VString s);
  json_MarshalIndent := marshal;
  ApiBlock := string;
  Previous := id;
  decode_DynamicGlobalProperties := λ _, dgp n;
  decode_Block := id;
  clock := λ _, 1700000000 * Second;
  Getenv := λ name, if decide (name = "DEBUG") then DEBUG n else "";
  Chain := unit;
  SteemChain := tt;
  transaction_RefBlockNum := wrap_uint16;
  transaction_RefBlockPrefix := block_prefix;
  NewSignedTransaction := mkSignedTransaction;
  PushOperation := push;
  Serialize := λ _, Ok "";
  Digest := λ _ _, Ok "";
  signature := λ _ _, sign_with;
  tx_Sign := sign_tx;
  RefBlockNum_low16 := λ _, eq_refl;
  NewSignedTransaction_wraps := λ _ _, eq_refl;
  PushOperation_appends := λ _ _, eq_refl;
  tx_Sign_in_order := λ tx keys chain tx' (Hsign : sign_tx tx keys chain = Ok tx'),
    match Hsign in (_ = r)
      return (match r with
              | Ok t => t = mkSignedTransaction
                  (mkTransaction (RefBlockNum (embedded tx)) (RefBlockPrefix (embedded tx))
                     (Expiration (embedded tx)) (Operations (embedded tx))
                     (Extensions (embedded tx))
                     (Signatures (embedded tx) ++ (sign_with <$> keys)))
              | Err _ => True
              end)
    with eq_refl => eq_refl end
|}.

(** A node at head block 70000 whose last irreversible block is 69990. *)
Definition node : Node :=
  {| dgp := {| HeadBlockNumber := 70000;
               HeadBlockId := "000111700a1b2c3d4e5f60718293a4b5c6d7e8f9";
               LastIrreversibleBlockNum := 69990 |};
     previous := "00011165a1b2c3d4e5f60718293a4b5c6d7e8f90";
     reachable := true;
     DEBUG := "" |}.

(** The same node when the block it serves carries no [previous] id. *)
Definition node_without_previous : Node :=
  {| dgp := dgp node; previous := ""; reachable := true; DEBUG := "" |}.

(** The same node behind a dead connection. *)
Definition node_down : Node :=
  {| dgp := dgp node; previous := previous node; reachable := false; DEBUG := "" |}.

(** Block fetches that time out twice and succeed at the third attempt. *)
Definition fetch_third (blockNum : Z) (attempt : nat) : result string :=
  if (2 <=? attempt)%nat then Ok "block" else Err (New "timeout").

(** Block fetches that succeed at once, except for block 10000001, which
    the node never serves. *)
Definition fetch_gap (blockNum : Z) (attempt : nat) : result string :=
  if decide (blockNum = 10000001) then Err (New "timeout") else Ok "block".

(** The vote of the spec's example. *)
Definition vote : Value :=
  VStruct "VoteOperation"
    [("voter", VString "alice"); ("author", VString "bob");
     ("permlink", VString "p"); ("weight", VInt 10000)].

(** The active and posting keys of client/client_test.go. *)
Definition active_wif : string := "5KjrKfLLRkDnY8cHYH2PkMofv6W4xwykatdqyUgQ7eCHDwkjAwf".
Definition posting_wif : string := "5K4YjdpHFUJpMoWV7u1KTnAaZy59N8oT4csQdwyyqhLqCyZZQ6U".

Definition two_keys : gmap string string :=
  {[ "active" := active_wif; "posting" := posting_wif ]}.

Definition endpoint : string := "https://api.steemit.com".

End Sample.

(* ===================================================================== *)
(** ** Vocabulary of the properties *)
(* ===================================================================== *)

(** The scheme of a URL with its separator: the text up to and including
    the first "://". *)
Fixpoint scheme (url : string) : option string :=
  match url with
  | EmptyString => None
  | String c rest =>
    if HasPrefix url "://" then Some "://" else String c <$> scheme rest
  end.

(** One signed call, as a caller writes it. *)
Record Call : Type := mkCall {
  call_method : string;
  call_params : list Value;
  call_account : string;
  call_privateKey : string
}.

(** A session: signed calls issued one after the other on one [API]. *)
Fixpoint session `{Externals} (a : API.API) (calls : list Call) (w : World)
  : API.API * World :=
  match calls with
  | [] => (a, w)
  | c :: calls =>
    let '(_, a, w) :=
      API.SignedCall a (call_method c) (call_params c) (call_account c)
        (call_privateKey c) w in
    session a calls w
  end.

(** The call identifiers handed out so far, oldest first. *)
Definition identifiers (w : World) : list Z :=
  omap (λ e, match e with EvRpcSign request _ _ => Some (ID request) | _ => None end) w.

(** What one receive does to the map, when the message is not nil. *)
Definition store `{Externals} (m : gmap Z (option Blocks.WrapBlock)) (x : option Blocks.WrapBlock)
  : gmap Z (option Blocks.WrapBlock) :=
  match x with
  | Some r => <[Blocks.BlockNum r := x]> m
  | None => m
  end.

(** The block numbers of the messages of a channel. *)
Definition keys `{Externals} (ch : list (option Blocks.WrapBlock)) : list Z :=
  omap (fmap Blocks.BlockNum) ch.

(** A complete range: one entry per block number of [from, to), none of
    them nil, in strictly ascending order of the block numbers, and no
    error. *)
Definition complete_ascending `{Externals} (from to : Z)
    (res : outcome (list (option Blocks.WrapBlock) * option error)) : Prop :=
  ∃ blocks : list Blocks.WrapBlock,
    res = Returned (Some <$> blocks, None) ∧
    length blocks = Z.to_nat (to - from) ∧
    Blocks.BlockNum <$> blocks = seqZ from (to - from) ∧
    StronglySorted Z.lt (Blocks.BlockNum <$> blocks).

(** The keys the entries of a map visit decode to, in the order of the
    visit. *)
Definition decoded `{Externals} (visit : list (string * string)) : list PrivateKey :=
  omap (λ entry, match FromWif entry.2 with
                 | Ok privKey => Some privKey
                 | Err _ => None
                 end) visit.

(** The request a synchronous broadcast of [tx] posts. *)
Definition broadcast_request (url : string) (tx : SignedTransaction) : Event :=
  EvHttp url
    (Some ("condenser_api.broadcast_transaction_synchronous",
           [SignedTransaction_any tx])).

(** A transaction with its signature list replaced. *)
Definition with_signatures (tx : SignedTransaction) (sigs : list string)
  : SignedTransaction :=
  mkSignedTransaction
    (mkTransaction (RefBlockNum (embedded tx)) (RefBlockPrefix (embedded tx))
       (Expiration (embedded tx)) (Operations (embedded tx))
       (Extensions (embedded tx)) sigs).


(** Attempt [k] is the first at which the node serves block [i], and [b]
    is what it serves then. *)
Definition first_served `{Externals} (fetch : Z → nat → result ApiBlock)
    (i : Z) (k : nat) (b : ApiBlock) : Prop :=
  fetch i k = Ok b ∧ ∀ j, (j < k)%nat → ∃ e, fetch i j = Err e.

(** A key-map entry whose WIF decodes. *)
Definition decodable `{Externals} (entry : string * string) : Prop :=
  ∃ privKey, FromWif entry.2 = Ok privKey.

(** A run that is a plain query: it calls [rpc.Sign] never, it posts the
    request for [method] with [params] to [url] once or not at all, and it
    has posted it when it returns a value. *)
Definition plain_query {A : Type} (url method : string) (params : list Value)
    (w : World) (run : result A * World) : Prop :=
  let request := EvHttp url (Some (method, params)) in
  identifiers run.2 = identifiers w ∧
  (run.2 = w ∨ run.2 = w ++ [request]) ∧
  (∀ v, run.1 = Ok v → run.2 = w ++ [request]).

(** The ways a query can go: the request cannot be encoded, the post
    fails, the node reports an error, the result cannot be marshalled, or
    all is well. *)
Ltac query_cases :=
  destruct (jsonrpc2_encode _ _); cbn [fst snd];
  [| destruct (jsonrpc2_post _ _ _) as [?rpcResponse|]; cbn [fst snd];
     [match goal with
      | rpcResponse : RpcResultData |- _ =>
        destruct (Error rpcResponse); cbn [fst snd];
        [| try (destruct (json_Marshal _); cbn [fst snd])]
      end |]].

(* ===================================================================== *)
(** ** Properties of api/api.go: signed calls *)
(* ===================================================================== *)

Section SignedCallProperties.
Context `{Externals}.

Lemma prefix_cons_inv (c : ascii) (p s : string) :
  String.prefix (String c p) s = true →
  ∃ s', s = String c s' ∧ String.prefix p s' = true.
Proof.
  destruct s as [|d s']; simpl; [discriminate|].
  destruct (ascii_dec c d) as [->|]; [eauto | discriminate].
Qed.

Lemma HasPrefix_http_scheme (url : string) :
  HasPrefix url "http://" = true → scheme url = Some "http://".
Proof.
  unfold HasPrefix. intros Hp.
  do 7 (let r := fresh "rest" in apply prefix_cons_inv in Hp as (r & -> & Hp)).
  match goal with rest : string |- _ => destruct rest; reflexivity end.
Qed.

Lemma HasPrefix_https_scheme (url : string) :
  HasPrefix url "https://" = true → scheme url = Some "https://".
Proof.
  unfold HasPrefix. intros Hp.
  do 8 (let r := fresh "rest" in apply prefix_cons_inv in Hp as (r & -> & Hp)).
  match goal with rest : string |- _ => destruct rest; reflexivity end.
Qed.

Lemma validateTransport_scheme (a : API.API) :
  scheme (API.url a) ≠ Some "http://" →
  scheme (API.url a) ≠ Some "https://" →
  API.validateTransportForSignedCall a =
    Some (New "signed calls can only be made when using HTTP transport").
Proof.
  intros Hhttp Hhttps. unfold API.validateTransportForSignedCall.
  destruct (HasPrefix (API.url a) "http://") eqn:E1.
  { apply HasPrefix_http_scheme in E1. contradiction. }
  destruct (HasPrefix (API.url a) "https://") eqn:E2.
  { apply HasPrefix_https_scheme in E2. contradiction. }
  reflexivity.
Qed.

(** C4.  When the scheme of the configured URL is neither http:// nor
    https://, [SignedCall] returns the transport error and nothing else
    happens: the world is the one it started from (no [rpc.Sign], no HTTP
    request) and the receiver is unchanged. *)
Theorem SignedCall_rejects_other_schemes (a : API.API) (method : string)
    (params : list Value) (account privateKey : string) (w : World) :
  scheme (API.url a) ≠ Some "http://" →
  scheme (API.url a) ≠ Some "https://" →
  API.SignedCall a method params account privateKey w =
    (Err (New "signed calls can only be made when using HTTP transport"), a, w).
Proof.
  intros Hhttp Hhttps. unfold API.SignedCall.
  rewrite (validateTransport_scheme a Hhttp Hhttps). reflexivity.
Qed.

(** What one call does to the receiver and to the world. *)
Lemma SignedCall_rejected (a : API.API) (method : string) (params : list Value)
    (account privateKey : string) (w : World) (e : error) :
  API.validateTransportForSignedCall a = Some e →
  API.SignedCall a method params account privateKey w = (Err e, a, w).
Proof. intros Hv. unfold API.SignedCall. rewrite Hv. reflexivity. Qed.

Lemma SignedCall_accepted (a : API.API) (method : string) (params : list Value)
    (account privateKey : string) (w : World) :
  API.validateTransportForSignedCall a = None →
  ∃ r evs,
    let a' := API.mkAPI (API.url a) (API.maxRetry a) (wrap_int (API.seqNo a + 1)) in
    let request := mkRpcRequest method params (API.seqNo a') in
    API.SignedCall a method params account privateKey w =
      (r, a', w ++ EvRpcSign request account [privateKey] :: evs) ∧
    (evs = [] ∨
     ∃ signedRequest,
       rpc_Sign w request account [privateKey] = Ok signedRequest ∧
       evs = [EvHttp (API.url a)
                (Some (method,
                       [VMap {[ "__signed" := Signed (SignedReqParams signedRequest) ]}]))]).
Proof.
  intros Hv. unfold API.SignedCall. rewrite Hv. cbn zeta.
  cbn [API.seqNo API.url API.maxRetry].
  destruct (rpc_Sign w _ account [privateKey]) as [signedRequest|err] eqn:Hs.
  2:{ eexists _, []. split; [reflexivity | by left]. }
  unfold jsonrpc2.BuildSendData, jsonrpc2.Send, jsonrpc2.NewClient.
  cbn [jsonrpc2.Url jsonrpc2.SendData].
  destruct (jsonrpc2_encode method _) as [err|].
  { eexists _, []. split; [reflexivity | by left]. }
  destruct (jsonrpc2_post _ _ _) as [rpcResponse|err].
  - destruct (Error rpcResponse).
    + eexists _, [_]. split; [rewrite <- app_assoc; reflexivity | right; eauto].
    + eexists _, [_]. split; [rewrite <- app_assoc; reflexivity | right; eauto].
  - eexists _, [_]. split; [rewrite <- app_assoc; reflexivity | right; eauto].
Qed.

(** C1, as the code has it.  Whatever [SignedCall] posts is a request whose
    parameter array has exactly one element, the object keyed "__signed"
    that carries what [rpc.Sign] returned for the request built from the
    method, the original parameters and the call identifier.  The original
    parameters are not elements of the outgoing array; it is the original
    array with the object appended exactly when the original array is
    empty. *)
Theorem SignedCall_outgoing_params (a : API.API) (method : string)
    (params : list Value) (account privateKey : string) (w : World)
    (r : result RpcResultData) (a' : API.API) (w' : World)
    (u : string) (data : option (string * list Value)) :
  API.SignedCall a method params account privateKey w = (r, a', w') →
  EvHttp u data ∈ w' →
  EvHttp u data ∉ w →
  ∃ signedRequest,
    let signedParams :=
      VMap {[ "__signed" := Signed (SignedReqParams signedRequest) ]} in
    rpc_Sign w (mkRpcRequest method params (API.seqNo a')) account [privateKey]
      = Ok signedRequest ∧
    u = API.url a ∧
    data = Some (method, [signedParams]) ∧
    ([signedParams] = params ++ [signedParams] ↔ params = []).
Proof.
  intros Hcall Hin Hnew.
  destruct (API.validateTransportForSignedCall a) as [e|] eqn:Hv.
  { rewrite (SignedCall_rejected _ _ _ _ _ _ _ Hv) in Hcall.
    injection Hcall as _ _ <-. contradiction. }
  destruct (SignedCall_accepted a method params account privateKey w Hv)
    as (r0 & evs & Hrun & Hevs).
  cbn zeta in Hrun. rewrite Hrun in Hcall. injection Hcall as _ <- <-.
  cbn [API.seqNo].
  apply elem_of_app in Hin as [Hin | Hin]; [contradiction|].
  apply elem_of_cons in Hin as [Hin | Hin]; [discriminate|].
  destruct Hevs as [-> | (signedRequest & Hsign & ->)].
  { by apply elem_of_nil in Hin. }
  apply list_elem_of_singleton in Hin. injection Hin as -> ->.
  exists signedRequest. cbn zeta. repeat split; try done.
  - intros Heq. apply (f_equal length) in Heq.
    rewrite length_app in Heq. cbn in Heq.
    destruct params; [done | cbn in Heq; lia].
  - intros ->. reflexivity.
Qed.

(** Go's [int] addition wraps around. *)
Lemma wrap_int_add (x y : Z) : wrap_int (wrap_int x + y) = wrap_int (x + y).
Proof.
  unfold wrap_int. f_equal.
  replace ((x + 2 ^ 63) mod 2 ^ 64 - 2 ^ 63 + y + 2 ^ 63)
    with ((x + 2 ^ 63) mod 2 ^ 64 + y) by lia.
  rewrite Zplus_mod_idemp_l. f_equal. lia.
Qed.

Lemma wrap_int_inj_near (x y : Z) :
  wrap_int x = wrap_int y → - 2 ^ 64 < x - y < 2 ^ 64 → x = y.
Proof.
  unfold wrap_int. intros Heq Hnear.
  assert (Hm : (x + 2 ^ 63) mod 2 ^ 64 = (y + 2 ^ 63) mod 2 ^ 64) by lia.
  pose proof (Z.div_mod (x + 2 ^ 63) (2 ^ 64) ltac:(lia)) as Hx.
  pose proof (Z.div_mod (y + 2 ^ 63) (2 ^ 64) ltac:(lia)) as Hy.
  rewrite Hm in Hx.
  assert ((x + 2 ^ 63) / 2 ^ 64 = (y + 2 ^ 63) / 2 ^ 64) by lia.
  lia.
Qed.

Lemma identifiers_app (w1 w2 : World) :
  identifiers (w1 ++ w2) = identifiers w1 ++ identifiers w2.
Proof. apply omap_app. Qed.

Lemma wrap_int_range (x : Z) : - 2 ^ 63 ≤ wrap_int x < 2 ^ 63.
Proof.
  unfold wrap_int.
  pose proof (Z.mod_pos_bound (x + 2 ^ 63) (2 ^ 64) ltac:(lia)). lia.
Qed.

Lemma wrap_int_id (x : Z) : - 2 ^ 63 ≤ x < 2 ^ 63 → wrap_int x = x.
Proof. intros Hx. unfold wrap_int. rewrite Z.mod_small; lia. Qed.

(** A session on an accepted transport: where the counter ends up and
    which identifiers were handed out. *)
Lemma session_accepted (calls : list Call) :
  ∀ (a : API.API) (w : World),
  API.validateTransportForSignedCall a = None →
  - 2 ^ 63 ≤ API.seqNo a < 2 ^ 63 →
  (session a calls w).1 =
    API.mkAPI (API.url a) (API.maxRetry a)
      (wrap_int (API.seqNo a + Z.of_nat (length calls))) ∧
  identifiers (session a calls w).2 =
    identifiers w ++
    ((λ k : nat, wrap_int (API.seqNo a + Z.of_nat k)) <$> seq 1 (length calls)).
Proof.
  induction calls as [|c calls IH]; intros a w Hv Hs.
  - cbn. rewrite Z.add_0_r, wrap_int_id by done. rewrite app_nil_r.
    by destruct a.
  - cbn [session].
    destruct (SignedCall_accepted a (call_method c) (call_params c)
                (call_account c) (call_privateKey c) w Hv)
      as (r & evs & Hrun & Hevs).
    cbn zeta in Hrun, Hevs. cbn [API.seqNo] in Hrun, Hevs.
    rewrite Hrun. cbn beta iota.
    set (a1 := API.mkAPI (API.url a) (API.maxRetry a) (wrap_int (API.seqNo a + 1))).
    assert (Hv1 : API.validateTransportForSignedCall a1 = None) by exact Hv.
    destruct (IH a1 (w ++ EvRpcSign
                 (mkRpcRequest (call_method c) (call_params c)
                    (wrap_int (API.seqNo a + 1)))
                 (call_account c) [call_privateKey c] :: evs)
                Hv1 (wrap_int_range _)) as [IHa IHw].
    split.
    + rewrite IHa. subst a1. cbn [API.url API.maxRetry API.seqNo].
      rewrite wrap_int_add. do 2 f_equal. cbn [length]. lia.
    + rewrite IHw. subst a1. cbn [API.seqNo].
      rewrite identifiers_app. cbn [length seq fmap list_fmap].
      rewrite <- app_assoc. f_equal.
      assert (Hids : identifiers
                (EvRpcSign (mkRpcRequest (call_method c) (call_params c)
                              (wrap_int (API.seqNo a + 1)))
                   (call_account c) [call_privateKey c] :: evs)
              = [wrap_int (API.seqNo a + 1)]).
      { destruct Hevs as [-> | (? & _ & ->)]; reflexivity. }
      rewrite Hids. cbn [app]. f_equal.
      rewrite <- (fmap_S_seq 1), <- list_fmap_compose.
      apply list_fmap_ext. intros _ k _. cbn.
      rewrite wrap_int_add. f_equal. lia.
Qed.

(** A session on a rejected transport changes nothing. *)
Lemma session_rejected (calls : list Call) (a : API.API) (w : World) (e : error) :
  API.validateTransportForSignedCall a = Some e →
  session a calls w = (a, w).
Proof.
  intros Hv. induction calls as [|c calls IH]; [reflexivity|].
  cbn [session]. rewrite (SignedCall_rejected _ _ _ _ _ _ _ Hv). exact IH.
Qed.

(** C3, as the code has it.  On one [API] instance the counter moves by
    exactly one for every call attempt that passes the transport check,
    whether or not the attempt then fails at signing, encoding, sending or
    on the node's answer; an attempt the transport check rejects leaves the
    counter where it was and hands out no identifier.  The identifiers
    handed out in a session of at most 2^64 attempts are pairwise
    distinct. *)
Theorem session_call_identifiers (a : API.API) (calls : list Call) (w : World) :
  - 2 ^ 63 ≤ API.seqNo a < 2 ^ 63 →
  (API.validateTransportForSignedCall a = None →
     API.seqNo (session a calls w).1 =
       wrap_int (API.seqNo a + Z.of_nat (length calls)) ∧
     ∃ ids,
       identifiers (session a calls w).2 = identifiers w ++ ids ∧
       ids = (λ k : nat, wrap_int (API.seqNo a + Z.of_nat k)) <$> seq 1 (length calls) ∧
       (Z.of_nat (length calls) ≤ 2 ^ 64 → NoDup ids)) ∧
  (API.validateTransportForSignedCall a ≠ None →
     session a calls w = (a, w)).
Proof.
  intros Hs. split.
  - intros Hv. destruct (session_accepted calls a w Hv Hs) as [Ha Hw].
    split; [by rewrite Ha|].
    eexists. split; [exact Hw|]. split; [reflexivity|].
    intros Hn. apply NoDup_fmap_2_strong; [|apply NoDup_seq].
    intros i j Hi Hj Heq.
    apply elem_of_seq in Hi. apply elem_of_seq in Hj.
    apply wrap_int_inj_near in Heq; lia.
  - intros Hv. destruct (API.validateTransportForSignedCall a) as [e|] eqn:Hve;
      [|done].
    by apply (session_rejected calls a w e).
Qed.

End SignedCallProperties.

(* ===================================================================== *)
(** ** Properties of client/client.go: signed calls *)
(* ===================================================================== *)

Section ClientSignedCallProperties.
Context `{Externals}.

(** The roles a key can be stored under. *)
Lemma checkKeyType_roles (keyType : string) :
  Client.checkKeyType keyType = true ↔
  keyType ∈ [Consts.OWNER_KEY; Consts.ACTIVE_KEY; Consts.POSTING_KEY; Consts.MEMO_KEY].
Proof.
  unfold Client.checkKeyType. rewrite !elem_of_cons, elem_of_nil.
  destruct (decide (keyType = Consts.ACTIVE_KEY)); [tauto|].
  destruct (decide (keyType = Consts.POSTING_KEY)); [tauto|].
  destruct (decide (keyType = Consts.OWNER_KEY)); [tauto|].
  destruct (decide (keyType = Consts.MEMO_KEY)); [tauto|].
  split; [discriminate | tauto].
Qed.

(** C10.  [Client.SignedCall] and [Client.SignedCallWithResult] check, in
    this order, that the account name is set, that the key type is one of
    owner, active, posting and memo, and that a key is stored for it; on
    the first check that fails they return its error and leave the world
    as it was (nothing is signed, nothing is sent). *)
Theorem Client_SignedCall_checks (c : Client.Client) (method : string)
    (params : list Value) (keyType : string) (w : World) :
  let roles :=
    [Consts.OWNER_KEY; Consts.ACTIVE_KEY; Consts.POSTING_KEY; Consts.MEMO_KEY] in
  (Client.AccountName c = "" →
     Client.SignedCall c method params keyType w =
       (Err (New "account name not set"), w) ∧
     Client.SignedCallWithResult c method params keyType w =
       (Err (New "account name not set"), w)) ∧
  (Client.AccountName c ≠ "" → keyType ∉ roles →
     Client.SignedCall c method params keyType w =
       (Err (Errorf "invalid key type: %s" [VString keyType]), w) ∧
     Client.SignedCallWithResult c method params keyType w =
       (Err (Errorf "invalid key type: %s" [VString keyType]), w)) ∧
  (Client.AccountName c ≠ "" → keyType ∈ roles → Client.Wifs c !! keyType = None →
     Client.SignedCall c method params keyType w =
       (Err (Errorf "private key for type '%s' not found" [VString keyType]), w) ∧
     Client.SignedCallWithResult c method params keyType w =
       (Err (Errorf "private key for type '%s' not found" [VString keyType]), w)).
Proof.
  cbn zeta. unfold Client.SignedCall, Client.SignedCallWithResult.
  split; [|split].
  - intros Hname. by rewrite !decide_True.
  - intros Hname Hrole. rewrite !decide_False by done.
    destruct (Client.checkKeyType keyType) eqn:Hk.
    { apply checkKeyType_roles in Hk. contradiction. }
    done.
  - intros Hname Hrole Hkey. rewrite !decide_False by done.
    apply checkKeyType_roles in Hrole. rewrite Hrole, Hkey. done.
Qed.

End ClientSignedCallProperties.

(* ===================================================================== *)
(** ** Properties of the block-range fetch *)
(* ===================================================================== *)

Section BlocksProperties.
Context `{Externals}.

Lemma receive_delivers (ch : list (option Blocks.WrapBlock)) :
  ∀ m, None ∉ ch →
  Blocks.receive (length ch) ch m = Returned (inl (foldl store m ch)).
Proof.
  induction ch as [|x ch IH]; intros m Hnil; [reflexivity|].
  apply not_elem_of_cons in Hnil as [Hx Hnil].
  destruct x as [r|]; [|done]. cbn [length Blocks.receive foldl store].
  unfold Blocks.blocksMap_get at 1. rewrite lookup_insert_eq. cbn.
  by apply IH.
Qed.

Lemma receive_nil_panics (ch : list (option Blocks.WrapBlock)) :
  ∀ m, None ∈ ch → Blocks.receive (length ch) ch m = Panicked.
Proof.
  induction ch as [|x ch IH]; intros m Hnil; [by apply elem_of_nil in Hnil|].
  destruct x as [r|]; [|reflexivity].
  apply elem_of_cons in Hnil as [Hnil|Hnil]; [discriminate|].
  cbn [length Blocks.receive].
  unfold Blocks.blocksMap_get at 1. rewrite lookup_insert_eq. cbn.
  by apply IH.
Qed.

Lemma foldl_store_other (ch : list (option Blocks.WrapBlock)) (k : Z) :
  ∀ m, k ∉ keys ch → foldl store m ch !! k = m !! k.
Proof.
  induction ch as [|x ch IH]; intros m Hk; [reflexivity|].
  destruct x as [r|]; cbn [foldl store].
  - unfold keys in Hk. cbn in Hk. apply not_elem_of_cons in Hk as [Hne Hk].
    rewrite IH by exact Hk. by rewrite lookup_insert_ne.
  - by apply IH.
Qed.

Lemma foldl_store_lookup (ch : list (option Blocks.WrapBlock)) (r : Blocks.WrapBlock) :
  ∀ m, NoDup (keys ch) → Some r ∈ ch →
  Blocks.blocksMap_get (foldl store m ch) (Blocks.BlockNum r) = Some r.
Proof.
  induction ch as [|x ch IH]; intros m Hdup Hin; [by apply elem_of_nil in Hin|].
  destruct x as [r'|]; cbn [foldl store].
  - unfold keys in Hdup. cbn in Hdup. apply NoDup_cons in Hdup as [Hfresh Hdup].
    apply elem_of_cons in Hin as [[= ->]|Hin].
    + unfold Blocks.blocksMap_get.
      rewrite foldl_store_other by exact Hfresh.
      by rewrite lookup_insert_eq.
    + by apply IH.
  - apply elem_of_cons in Hin as [Hin|Hin]; [discriminate|].
    by apply IH.
Qed.

Lemma seqZ_strictly_ascending (n : nat) :
  ∀ m, StronglySorted Z.lt (seqZ m (Z.of_nat n)).
Proof.
  induction n as [|n IH]; intros m; [constructor|].
  rewrite seqZ_cons by lia.
  replace (Z.pred (Z.of_nat (S n))) with (Z.of_nat n) by lia.
  constructor; [apply IH|].
  apply Forall_forall. intros k Hk. apply elem_of_seqZ in Hk. lia.
Qed.

(** Whatever the order of arrival, when every goroutine of [from, to)
    sends a block carrying its own number, [GetBlocks] returns these
    blocks in the order of the block numbers. *)
Lemma GetBlocks_complete (got : Z → Blocks.WrapBlock) (from to : Z)
    (ch : list (option Blocks.WrapBlock)) :
  from < to →
  (∀ i, from ≤ i < to → Blocks.BlockNum (got i) = i) →
  ch ≡ₚ (Some ∘ got) <$> seqZ from (to - from) →
  Blocks.GetBlocks from to ch =
    Returned (Some <$> (got <$> seqZ from (to - from)), None).
Proof.
  intros Hlt Hnum Hperm. unfold Blocks.GetBlocks.
  destruct (from >=? to) eqn:Hge; [lia|].
  assert (Hlen : length ch = Z.to_nat (to - from)).
  { rewrite Hperm, length_fmap, length_seqZ. reflexivity. }
  assert (Hnil : None ∉ ch).
  { rewrite Hperm. intros (i & Heq & _)%list_elem_of_fmap. discriminate Heq. }
  assert (Hkeys : keys ch ≡ₚ seqZ from (to - from)).
  { unfold keys. rewrite Hperm. clear Hperm Hlen Hnil.
    assert (Hrange : ∀ i, i ∈ seqZ from (to - from) → from ≤ i < to).
    { intros i Hi. apply elem_of_seqZ in Hi. lia. }
    induction (seqZ from (to - from)) as [|i l IH]; [reflexivity|].
    cbn. rewrite Hnum by (apply Hrange; left).
    rewrite IH; [reflexivity|]. intros j Hj. apply Hrange. by right. }
  rewrite <- Hlen, receive_delivers by exact Hnil.
  f_equal. f_equal. rewrite <- list_fmap_compose.
  apply list_fmap_ext. intros _ i Hi%list_elem_of_lookup_2.
  assert (Hr : from ≤ i < to) by (apply elem_of_seqZ in Hi; lia).
  cbn. rewrite <- (Hnum i Hr) at 1.
  apply foldl_store_lookup.
  - rewrite Hkeys. apply NoDup_seqZ.
  - rewrite Hperm. apply list_elem_of_fmap. by exists i.
Qed.

(** Whatever the order of arrival, a nil message among those of the range
    makes [GetBlocks] panic. *)
Lemma GetBlocks_nil_panics (from to : Z) (sent ch : list (option Blocks.WrapBlock)) :
  from < to →
  length sent = Z.to_nat (to - from) →
  ch ≡ₚ sent →
  None ∈ sent →
  Blocks.GetBlocks from to ch = Panicked.
Proof.
  intros Hlt Hlen Hperm Hnil. unfold Blocks.GetBlocks.
  destruct (from >=? to) eqn:Hge; [lia|].
  rewrite <- Hlen, <- Hperm, receive_nil_panics; [reflexivity|].
  by rewrite Hperm.
Qed.

Lemma GetBlocks_complete_ascending (got : Z → Blocks.WrapBlock) (from to : Z)
    (ch : list (option Blocks.WrapBlock)) :
  from < to →
  (∀ i, from ≤ i < to → Blocks.BlockNum (got i) = i) →
  ch ≡ₚ (Some ∘ got) <$> seqZ from (to - from) →
  complete_ascending from to (Blocks.GetBlocks from to ch).
Proof.
  intros Hlt Hnum Hperm. exists (got <$> seqZ from (to - from)).
  assert (Hnums : Blocks.BlockNum <$> (got <$> seqZ from (to - from))
                  = seqZ from (to - from)).
  { rewrite <- list_fmap_compose. rewrite <- (list_fmap_id (seqZ from (to - from))) at 2.
    apply list_fmap_ext. intros _ i Hi%list_elem_of_lookup_2.
    apply elem_of_seqZ in Hi. cbn. apply Hnum. lia. }
  split; [by apply GetBlocks_complete|].
  split; [by rewrite length_fmap, length_seqZ|].
  split; [exact Hnums|].
  rewrite Hnums. rewrite <- (Z2Nat.id (to - from)) by lia.
  apply seqZ_strictly_ascending.
Qed.

Section Fetch.
Variable fetch : Z → nat → result ApiBlock.

(** The bounded retry loop: it stops at the first attempt that succeeds. *)
Lemma retry_found (blockNum : Z) (n : nat) :
  ∀ (attempt : nat) (block : option ApiBlock) (err : option error),
  (∃ k b, (attempt ≤ k < attempt + n)%nat ∧ fetch blockNum k = Ok b) →
  ∃ b', Client.retry fetch blockNum n attempt block err = (Some b', None).
Proof.
  induction n as [|n IH]; intros attempt block err (k & b & Hk & Hb); [lia|].
  cbn [Client.retry]. destruct (fetch blockNum attempt) as [b0|e] eqn:Hf; [eauto|].
  apply IH. exists k, b. split; [|done].
  destruct (decide (k = attempt)) as [->|]; [congruence | lia].
Qed.

(** The bounded retry loop: when every attempt of the budget fails, the
    last error is what remains. *)
Lemma retry_exhausted (blockNum : Z) (n : nat) :
  ∀ (attempt : nat) (block : option ApiBlock) (err : option error),
  (n = 0%nat → err ≠ None) →
  (∀ k, (attempt ≤ k < attempt + n)%nat → ∃ e, fetch blockNum k = Err e) →
  ∃ b e, Client.retry fetch blockNum n attempt block err = (b, Some e).
Proof.
  induction n as [|n IH]; intros attempt block err Herr Hfail.
  - cbn. destruct err as [e|]; [eauto | by destruct Herr].
  - cbn [Client.retry]. destruct (Hfail attempt ltac:(lia)) as [e ->].
    apply IH; [done|]. intros k Hk. apply Hfail. lia.
Qed.

Lemma Client_wrapGetBlock_found (c : Client.Client) (blockNum : Z) :
  (∃ k b, (k < Z.to_nat (Client.MaxRetry c))%nat ∧ fetch blockNum k = Ok b) →
  ∃ b', Client.wrapGetBlock fetch c blockNum =
          Some (Blocks.mkWrapBlock blockNum (Some b')).
Proof.
  intros (k & b & Hk & Hb). unfold Client.wrapGetBlock.
  destruct (retry_found blockNum (Z.to_nat (Client.MaxRetry c)) 0 None None)
    as [b' ->]; [|eauto].
  exists k, b. split; [lia | done].
Qed.

Lemma Client_wrapGetBlock_exhausted (c : Client.Client) (blockNum : Z) :
  0 < Client.MaxRetry c →
  (∀ k, (k < Z.to_nat (Client.MaxRetry c))%nat → ∃ e, fetch blockNum k = Err e) →
  Client.wrapGetBlock fetch c blockNum = None.
Proof.
  intros Hbudget Hfail. unfold Client.wrapGetBlock.
  destruct (retry_exhausted blockNum (Z.to_nat (Client.MaxRetry c)) 0 None None)
    as (b & e & ->); [lia | | done].
  intros k Hk. apply Hfail. lia.
Qed.

(** The unbounded retry loop sends once it has been given the time to reach
    a successful attempt. *)
Lemma API_wrapGetBlock_from_found (blockNum : Z) (fuel : nat) :
  ∀ (attempt k : nat) (b : ApiBlock),
  (attempt ≤ k)%nat → fetch blockNum k = Ok b → (k - attempt < fuel)%nat →
  ∃ b', API.wrapGetBlock_from fetch blockNum attempt fuel =
          Some (Some (Blocks.mkWrapBlock blockNum (Some b'))).
Proof.
  induction fuel as [|fuel IH]; intros attempt k b Hle Hb Hfuel; [lia|].
  cbn [API.wrapGetBlock_from].
  destruct (fetch blockNum attempt) as [b0|e] eqn:Hf; [eauto|].
  destruct (decide (k = attempt)) as [->|]; [congruence|].
  apply (IH (S attempt) k b); [lia | done | lia].
Qed.

Lemma API_wrapGetBlock_all_found (l : list Z) :
  (∀ i, i ∈ l → ∃ k b, fetch i k = Ok b) →
  ∃ fuel0 : nat, ∀ fuel : nat, (fuel0 ≤ fuel)%nat → ∀ i, i ∈ l →
    ∃ b', API.wrapGetBlock fetch fuel i =
            Some (Some (Blocks.mkWrapBlock i (Some b'))).
Proof.
  induction l as [|i l IH]; intros Hall.
  - exists 0%nat. intros fuel _ j Hj. by apply elem_of_nil in Hj.
  - destruct IH as [fuel0 IH]; [intros j Hj; apply Hall; by right|].
    destruct (Hall i ltac:(left)) as (k & b & Hb).
    exists (Nat.max (S k) fuel0). intros fuel Hfuel j Hj.
    apply elem_of_cons in Hj as [->|Hj].
    + apply (API_wrapGetBlock_from_found i fuel 0 k b); [lia | done | lia].
    + apply IH; [lia | done].
Qed.

(** C6.  For from < to, when every block of the range can be retrieved
    (within the retry budget for the client's bounded retries, at some
    attempt for the API's unbounded retries), [GetBlocks] returns to - from
    entries, none of them nil, in strictly ascending order of the block
    numbers, whatever the order in which the channel delivers the
    goroutines' messages.  For the unbounded retries the goroutines need
    the time to reach their successful attempts: from some amount of fuel
    on, every amount gives the result. *)
Theorem GetBlocks_returns_complete_range (from to : Z) :
  from < to →
  (∀ (c : Client.Client) (ch : list (option Blocks.WrapBlock)),
     (∀ i, from ≤ i < to →
        ∃ k b, (k < Z.to_nat (Client.MaxRetry c))%nat ∧ fetch i k = Ok b) →
     ch ≡ₚ Client.sent fetch c from to →
     complete_ascending from to (Client.GetBlocks from to ch)) ∧
  ((∀ i, from ≤ i < to → ∃ k b, fetch i k = Ok b) →
   ∃ fuel0 : nat, ∀ (fuel : nat) (ch : list (option Blocks.WrapBlock)),
     (fuel0 ≤ fuel)%nat →
     ch ≡ₚ API.sent fetch fuel from to →
     complete_ascending from to (API.GetBlocks from to ch)).
Proof.
  intros Hlt. split.
  - intros c ch Hfound Hperm.
    set (got := λ i, default (Blocks.mkWrapBlock i None) (Client.wrapGetBlock fetch c i)).
    assert (Hgot : ∀ i, from ≤ i < to →
              Client.wrapGetBlock fetch c i = Some (got i) ∧ Blocks.BlockNum (got i) = i).
    { intros i Hi. destruct (Client_wrapGetBlock_found c i (Hfound i Hi)) as [b' Hb'].
      unfold got. rewrite Hb'. done. }
    apply (GetBlocks_complete_ascending got); [done | by intros i Hi; apply Hgot |].
    rewrite Hperm. unfold Client.sent.
    erewrite list_fmap_ext; [reflexivity|].
    intros _ i Hi%list_elem_of_lookup_2. apply elem_of_seqZ in Hi.
    cbn. apply Hgot. lia.
  - intros Hfound.
    destruct (API_wrapGetBlock_all_found (seqZ from (to - from))) as [fuel0 Hfuel0].
    { intros i Hi. apply elem_of_seqZ in Hi. apply Hfound. lia. }
    exists fuel0. intros fuel ch Hfuel Hperm.
    set (got := λ i, default (Blocks.mkWrapBlock i None)
                       (default None (API.wrapGetBlock fetch fuel i))).
    assert (Hgot : ∀ i, from ≤ i < to →
              API.wrapGetBlock fetch fuel i = Some (Some (got i)) ∧
              Blocks.BlockNum (got i) = i).
    { intros i Hi. destruct (Hfuel0 fuel Hfuel i) as [b' Hb'].
      { apply elem_of_seqZ. lia. }
      unfold got. rewrite Hb'. done. }
    apply (GetBlocks_complete_ascending got); [done | by intros i Hi; apply Hgot |].
    assert (Hsent : API.sent fetch fuel from to = (Some ∘ got) <$> seqZ from (to - from)).
    { unfold API.sent. clear Hperm Hfuel0.
      assert (Hrange : ∀ i, i ∈ seqZ from (to - from) → from ≤ i < to).
      { intros i Hi. apply elem_of_seqZ in Hi. lia. }
      induction (seqZ from (to - from)) as [|i l IH]; [reflexivity|].
      cbn. destruct (Hgot i) as [-> _]; [apply Hrange; left|].
      cbn. f_equal. apply IH. intros j Hj. apply Hrange. by right. }
    by rewrite Hperm, Hsent.
Qed.

(** The defect behind C5: on every order of arrival, a block whose retry
    budget is exhausted makes the client's [GetBlocks] panic. *)
Lemma Client_GetBlocks_panics (c : Client.Client) (from to blockNum : Z)
    (ch : list (option Blocks.WrapBlock)) :
  from ≤ blockNum < to →
  0 < Client.MaxRetry c →
  (∀ k, (k < Z.to_nat (Client.MaxRetry c))%nat → ∃ e, fetch blockNum k = Err e) →
  ch ≡ₚ Client.sent fetch c from to →
  Client.GetBlocks from to ch = Panicked.
Proof.
  intros Hin Hbudget Hfail Hperm.
  apply (GetBlocks_nil_panics from to (Client.sent fetch c from to));
    [lia | | done |].
  - unfold Client.sent. by rewrite length_fmap, length_seqZ.
  - unfold Client.sent. apply list_elem_of_fmap. exists blockNum. split.
    + symmetry. by apply Client_wrapGetBlock_exhausted.
    + apply elem_of_seqZ. lia.
Qed.

End Fetch.
End BlocksProperties.

(* ===================================================================== *)
(** ** Properties of broadcast/broadcast.go *)
(* ===================================================================== *)

Section BroadcastProperties.
Context `{Externals}.

Lemma foldl_PushOperation (ops : list Value) :
  ∀ tx : SignedTransaction,
  foldl PushOperation tx ops =
    mkSignedTransaction
      (mkTransaction (RefBlockNum (embedded tx)) (RefBlockPrefix (embedded tx))
         (Expiration (embedded tx)) (Operations (embedded tx) ++ ops)
         (Extensions (embedded tx)) (Signatures (embedded tx))).
Proof.
  induction ops as [|op ops IH]; intros tx.
  - cbn. rewrite app_nil_r. by destruct tx as [[]].
  - cbn [foldl]. rewrite IH, PushOperation_appends. cbn.
    by rewrite <- app_assoc.
Qed.

Lemma low16_of_uint32 (x : Z) :
  wrap_uint16 (wrap_uint32 (Z.land (wrap_uint32 x) 0xFFFF)) = Z.land x 0xFFFF.
Proof.
  unfold wrap_uint16, wrap_uint32.
  change 0xFFFF with (Z.ones 16). rewrite !Z.land_ones by lia.
  assert (Hdiv : (2 ^ 16 | 2 ^ 32)) by (exists (2 ^ 16); reflexivity).
  rewrite (Z.mod_mod_divide x) by exact Hdiv.
  rewrite (Z.mod_mod_divide (x mod 2 ^ 16)) by exact Hdiv.
  apply Z.mod_mod. lia.
Qed.

Lemma low16 (x : Z) : wrap_uint16 x = Z.land x 0xFFFF.
Proof.
  unfold wrap_uint16. change 0xFFFF with (Z.ones 16).
  by rewrite Z.land_ones by lia.
Qed.

(** What a successful [prepareTransaction] of the [ClientInterface]
    revision returns. *)
Lemma Broadcast_prepareTransaction_Ok (b : Broadcast.Broadcast) (ops : list Value)
    (w w' : World) (tx : SignedTransaction) :
  Broadcast.prepareTransaction b ops w = (Ok tx, w') →
  ∃ dgp refBlockPrefix,
    ops ≠ [] ∧
    Broadcast.GetDynamicGlobalProperties (Broadcast.client b) w = (Ok dgp, w') ∧
    transaction_RefBlockPrefix (HeadBlockId dgp) = Ok refBlockPrefix ∧
    tx = mkSignedTransaction
           (mkTransaction (Z.land (HeadBlockNumber dgp) 0xFFFF) refBlockPrefix
              (Some (Time_Add (time_Now w') (600 * Second))) ops None []).
Proof.
  unfold Broadcast.prepareTransaction. intros Hrun.
  destruct (decide (length ops = 0%nat)) as [|Hops]; [discriminate|].
  destruct (Broadcast.GetDynamicGlobalProperties _ w) as [[dgp|err] w1] eqn:Hdgp;
    [|discriminate].
  destruct (transaction_RefBlockPrefix _) as [refBlockPrefix|err] eqn:Hprefix;
    [|discriminate].
  injection Hrun as <- <-. exists dgp, refBlockPrefix.
  split; [by intros ->|]. split; [done|]. split; [done|].
  rewrite foldl_PushOperation, NewSignedTransaction_wraps by done.
  cbn. by rewrite RefBlockNum_low16, low16.
Qed.

(** What a successful [prepareTransaction] of the last-irreversible
    revision returns. *)
Lemma BroadcastLIB_prepareTransaction_Ok (b : BroadcastLIB.Broadcast)
    (ops : list Value) (w w' : World) (tx : SignedTransaction) :
  BroadcastLIB.prepareTransaction b ops w = (Ok tx, w') →
  ∃ dgp w1 block refBlockPrefix,
    ops ≠ [] ∧
    API.GetDynamicGlobalProperties (BroadcastLIB.api b) w = (Ok dgp, w1) ∧
    API.GetBlock (BroadcastLIB.api b) (LastIrreversibleBlockNum dgp) w1 = (Ok block, w') ∧
    transaction_RefBlockPrefix
      (if decide (Previous block = "") then BroadcastLIB.zeroBlockId
       else Previous block) = Ok refBlockPrefix ∧
    tx = mkSignedTransaction
           (mkTransaction (Z.land (LastIrreversibleBlockNum dgp - 1) 0xFFFF)
              refBlockPrefix
              (Some (Time_Add (Time_UTC (time_Now w')) (600 * Second)))
              ops (Some []) []).
Proof.
  unfold BroadcastLIB.prepareTransaction. intros Hrun.
  destruct (decide (length ops = 0%nat)) as [|Hops]; [discriminate|].
  destruct (API.GetDynamicGlobalProperties _ w) as [[dgp|err] w1] eqn:Hdgp;
    [|discriminate].
  destruct (API.GetBlock _ _ w1) as [[block|err] w2] eqn:Hblock; [|discriminate].
  destruct (transaction_RefBlockPrefix _) as [refBlockPrefix|err] eqn:Hprefix;
    [|discriminate].
  injection Hrun as <- <-. exists dgp, w1, block, refBlockPrefix.
  split; [by intros ->|]. do 3 (split; [done|]).
  rewrite foldl_PushOperation, NewSignedTransaction_wraps by done.
  cbn. by rewrite RefBlockNum_low16, low16_of_uint32.
Qed.

(** C9, as the code has it.  After a successful [prepareTransaction],
    refBlockNum is the low 16 bits of the reference block number: the head
    block number in the [ClientInterface] revision, lastIrreversibleBlockNum
    - 1 in the last-irreversible revision.  refBlockPrefix is the value
    [transaction.RefBlockPrefix] returns for the head block id in the first
    revision; in the second it is the value returned for the previous-block
    id of the block at lastIrreversibleBlockNum when that block carries one,
    and for the all-zero block id when it carries none. *)
Theorem prepareTransaction_reference_block :
  (∀ (b : Broadcast.Broadcast) (ops : list Value) (w w' : World)
     (tx : SignedTransaction),
     Broadcast.prepareTransaction b ops w = (Ok tx, w') →
     ∃ dgp,
       Broadcast.GetDynamicGlobalProperties (Broadcast.client b) w = (Ok dgp, w') ∧
       RefBlockNum (embedded tx) = Z.land (HeadBlockNumber dgp) 0xFFFF ∧
       transaction_RefBlockPrefix (HeadBlockId dgp) =
         Ok (RefBlockPrefix (embedded tx))) ∧
  (∀ (b : BroadcastLIB.Broadcast) (ops : list Value) (w w' : World)
     (tx : SignedTransaction),
     BroadcastLIB.prepareTransaction b ops w = (Ok tx, w') →
     ∃ dgp w1 block,
       API.GetDynamicGlobalProperties (BroadcastLIB.api b) w = (Ok dgp, w1) ∧
       API.GetBlock (BroadcastLIB.api b) (LastIrreversibleBlockNum dgp) w1 =
         (Ok block, w') ∧
       RefBlockNum (embedded tx) = Z.land (LastIrreversibleBlockNum dgp - 1) 0xFFFF ∧
       (Previous block ≠ "" →
          transaction_RefBlockPrefix (Previous block) =
            Ok (RefBlockPrefix (embedded tx))) ∧
       (Previous block = "" →
          transaction_RefBlockPrefix BroadcastLIB.zeroBlockId =
            Ok (RefBlockPrefix (embedded tx)))).
Proof.
  split.
  - intros b ops w w' tx Hrun.
    destruct (Broadcast_prepareTransaction_Ok b ops w w' tx Hrun)
      as (dgp & refBlockPrefix & _ & Hdgp & Hprefix & ->).
    exists dgp. done.
  - intros b ops w w' tx Hrun.
    destruct (BroadcastLIB_prepareTransaction_Ok b ops w w' tx Hrun)
      as (dgp & w1 & block & refBlockPrefix & _ & Hdgp & Hblock & Hprefix & ->).
    exists dgp, w1, block. do 3 (split; [done|]). cbn.
    split; intros Hprev.
    + by rewrite decide_False in Hprefix.
    + by rewrite decide_True in Hprefix.
Qed.

(** The last-irreversible revision does what C7 and C8 say: the expiration
    is the clock reading, moved to UTC, plus 600 seconds, and the
    extensions are the empty, non-nil slice. *)
Lemma BroadcastLIB_prepareTransaction_expiration_extensions
    (b : BroadcastLIB.Broadcast) (ops : list Value) (w w' : World)
    (tx : SignedTransaction) :
  BroadcastLIB.prepareTransaction b ops w = (Ok tx, w') →
  Expiration (embedded tx) = Some (mkTime (clock w' + 600 * Second) UTC) ∧
  Extensions (embedded tx) = Some [].
Proof.
  intros Hrun.
  destruct (BroadcastLIB_prepareTransaction_Ok b ops w w' tx Hrun)
    as (dgp & w1 & block & refBlockPrefix & _ & _ & _ & _ & ->).
  done.
Qed.

(** The [ClientInterface] revision does not: the expiration stays in the
    local zone and the extensions stay nil. *)
Lemma Broadcast_prepareTransaction_expiration_extensions
    (b : Broadcast.Broadcast) (ops : list Value) (w w' : World)
    (tx : SignedTransaction) :
  Broadcast.prepareTransaction b ops w = (Ok tx, w') →
  Expiration (embedded tx) = Some (mkTime (clock w' + 600 * Second) Local) ∧
  Extensions (embedded tx) = None.
Proof.
  intros Hrun.
  destruct (Broadcast_prepareTransaction_Ok b ops w w' tx Hrun)
    as (dgp & refBlockPrefix & _ & _ & _ & ->).
  done.
Qed.

(** The key loop hands the decoded keys on in the order of the visit. *)
Lemma Broadcast_decodeKeys_Ok (visit : list (string * string)) :
  ∀ privKeyObjs keys,
  Broadcast.decodeKeys visit privKeyObjs = Ok keys →
  keys = privKeyObjs ++ decoded visit.
Proof.
  induction visit as [|[name wifStr] visit IH]; intros privKeyObjs keys Hrun.
  - injection Hrun as <-. by rewrite app_nil_r.
  - cbn in Hrun. unfold decoded. cbn.
    destruct (FromWif wifStr) as [privKey|err]; [|discriminate].
    rewrite (IH _ _ Hrun), <- app_assoc. reflexivity.
Qed.

Lemma BroadcastLIB_decodeKeys_Ok (visit : list (string * string)) :
  ∀ privKeyObjs keys,
  BroadcastLIB.decodeKeys visit privKeyObjs = Ok keys →
  keys = privKeyObjs ++ decoded visit.
Proof.
  induction visit as [|[name wifStr] visit IH]; intros privKeyObjs keys Hrun.
  - injection Hrun as <-. by rewrite app_nil_r.
  - cbn in Hrun. unfold decoded. cbn.
    destruct (FromWif wifStr) as [privKey|err]; [|discriminate].
    rewrite (IH _ _ Hrun), <- app_assoc. reflexivity.
Qed.

(** A successful [Send], revision by revision: the transaction it
    broadcasts is the prepared one signed by the keys in the order of the
    visit. *)
Lemma Broadcast_Send_Ok (c : Client.Client) (url : string) (ops : list Value)
    (privKeys : gmap string string) (visit : list (string * string))
    (w w' : World) (r : string) :
  let b := Broadcast.NewBroadcast (Broadcast.Client_as_ClientInterface c) url in
  Broadcast.Send b ops privKeys visit w = (Ok r, w') →
  ∃ tx0 w0,
    Broadcast.prepareTransaction b ops w = (Ok tx0, w0) ∧
    w' = w0 ++ [broadcast_request (Client.Url c)
                  (with_signatures tx0
                     (signature SteemChain (embedded tx0) <$> decoded visit))].
Proof.
  cbn zeta. unfold Broadcast.Send. intros Hrun.
  destruct (Broadcast.prepareTransaction _ ops w) as [[tx0|err] w0] eqn:Hprep;
    [|discriminate].
  destruct (Broadcast.decodeKeys visit []) as [keys|err] eqn:Hkeys; [|discriminate].
  destruct (tx_Sign tx0 keys SteemChain) as [tx|err] eqn:Hsign; [|discriminate].
  apply Broadcast_decodeKeys_Ok in Hkeys. cbn in Hkeys. subst keys.
  apply tx_Sign_in_order in Hsign.
  destruct (Broadcast_prepareTransaction_Ok _ ops w w0 tx0 Hprep)
    as (dgp & refBlockPrefix & _ & _ & _ & Htx0).
  exists tx0, w0. split; [done|].
  assert (Htx : tx = with_signatures tx0
                  (signature SteemChain (embedded tx0) <$> decoded visit)).
  { rewrite Hsign. unfold with_signatures. by rewrite Htx0. }
  clear Hsign. subst tx. cbn in Hrun.
  unfold Client.BroadcastSync, jsonrpc2.BuildSendData, jsonrpc2.Send,
    Client.GetRpcClient, jsonrpc2.NewClient in Hrun.
  cbn [jsonrpc2.Url jsonrpc2.SendData] in Hrun.
  destruct (jsonrpc2_encode _ _); [discriminate|].
  destruct (jsonrpc2_post _ _ _) as [rpcResponse|err]; [|discriminate].
  destruct (Error rpcResponse); [discriminate|].
  destruct (json_Marshal _); [|discriminate].
  by injection Hrun as _ <-.
Qed.

Lemma BroadcastLIB_Send_Ok (b : BroadcastLIB.Broadcast) (ops : list Value)
    (privKeys : gmap string string) (visit : list (string * string))
    (w w' : World) (r : string) (b' : BroadcastLIB.Broadcast) :
  BroadcastLIB.Send b ops privKeys visit w = ((Ok r, b'), w') →
  ∃ tx0 w0,
    BroadcastLIB.prepareTransaction b ops w = (Ok tx0, w0) ∧
    w' = w0 ++ [broadcast_request (jsonrpc2.Url (BroadcastLIB.rpc b))
                  (with_signatures tx0
                     (signature SteemChain (embedded tx0) <$> decoded visit))].
Proof.
  unfold BroadcastLIB.Send. intros Hrun.
  destruct (BroadcastLIB.prepareTransaction _ ops w) as [[tx0|err] w0] eqn:Hprep;
    [|discriminate].
  destruct (BroadcastLIB.debugDump tx0); [discriminate|].
  destruct (BroadcastLIB.decodeKeys visit []) as [keys|err] eqn:Hkeys; [|discriminate].
  destruct (tx_Sign tx0 keys SteemChain) as [tx|err] eqn:Hsign; [|discriminate].
  apply BroadcastLIB_decodeKeys_Ok in Hkeys. cbn in Hkeys. subst keys.
  apply tx_Sign_in_order in Hsign.
  destruct (BroadcastLIB_prepareTransaction_Ok _ ops w w0 tx0 Hprep)
    as (dgp & w1 & block & refBlockPrefix & _ & _ & _ & _ & Htx0).
  exists tx0, w0. split; [done|].
  assert (Htx : tx = with_signatures tx0
                  (signature SteemChain (embedded tx0) <$> decoded visit)).
  { rewrite Hsign. unfold with_signatures. by rewrite Htx0. }
  clear Hsign. subst tx.
  unfold BroadcastLIB.BroadcastSync, jsonrpc2.BuildSendData, jsonrpc2.Send in Hrun.
  cbn [jsonrpc2.Url jsonrpc2.SendData] in Hrun.
  destruct (jsonrpc2_encode _ _); [discriminate|].
  destruct (jsonrpc2_post _ _ _) as [rpcResponse|err]; [|discriminate].
  destruct (Error rpcResponse); [discriminate|].
  destruct (json_Marshal _); [|discriminate].
  by injection Hrun as _ _ <-.
Qed.



End BroadcastProperties.

(* ===================================================================== *)
(** ** Signed calls against the sample node *)
(* ===================================================================== *)

(** C4 at the WebSocket endpoint of api_test.go. *)
Lemma SignedCall_rejects_other_schemes_witness :
  scheme "wss://api.steemit.com" ≠ Some "http://" ∧
  scheme "wss://api.steemit.com" ≠ Some "https://" ∧
  API.SignedCall (H := Sample.externals Sample.node)
    (API.NewAPI "wss://api.steemit.com") "condenser_api.get_accounts"
    [VSlice [VString "testuser"]] "testuser"
    "5JLw5dgQAx6rhZEgNN5C2ds1V47RweGshynFSWFbaMohsYsBvE8" [] =
  (Err (New "signed calls can only be made when using HTTP transport"),
   API.NewAPI "wss://api.steemit.com", []).
Proof.
  split; [|split].
  - intros Heq. vm_compute in Heq. discriminate Heq.
  - intros Heq. vm_compute in Heq. discriminate Heq.
  - apply (SignedCall_rejects_other_schemes (H := Sample.externals Sample.node)).
    + intros Heq. vm_compute in Heq. discriminate Heq.
    + intros Heq. vm_compute in Heq. discriminate Heq.
Defined.

(** C1 fails as stated: with one original parameter the posted array is
    the "__signed" object alone, not the original parameter followed by
    it. *)
Lemma SignedCall_params_not_appended :
  let params := [VSlice [VString "testuser"]] in
  let key := "5JLw5dgQAx6rhZEgNN5C2ds1V47RweGshynFSWFbaMohsYsBvE8" in
  let signedParams :=
    VMap {[ "__signed" :=
      VStruct "Signed"
        [("account", VString "testuser"); ("nonce", VInt 0);
         ("params", VSlice params);
         ("signatures", VSlice [VString (Sample.sign_with key)])] ]} in
  (API.SignedCall (H := Sample.externals Sample.node)
     (API.NewAPI "https://api.steemit.com") "condenser_api.get_accounts"
     params "testuser" key []).2 =
  [EvRpcSign (mkRpcRequest "condenser_api.get_accounts" params 1) "testuser" [key];
   EvHttp "https://api.steemit.com"
     (Some ("condenser_api.get_accounts", [signedParams]))] ∧
  ∀ x, [signedParams] ≠ params ++ [x].
Proof.
  cbn zeta. split.
  - vm_compute. reflexivity.
  - intros x Heq. discriminate Heq.
Qed.

(** C1 as amended, on the same call. *)
Lemma SignedCall_outgoing_params_witness :
  let params := [VSlice [VString "testuser"]] in
  let key := "5JLw5dgQAx6rhZEgNN5C2ds1V47RweGshynFSWFbaMohsYsBvE8" in
  let E := Sample.externals Sample.node in
  let a := API.NewAPI "https://api.steemit.com" in
  let run := API.SignedCall (H := E) a "condenser_api.get_accounts" params "testuser" key [] in
  ∃ data signedRequest,
    EvHttp "https://api.steemit.com" data ∈ run.2 ∧
    rpc_Sign (Externals := E) []
      (mkRpcRequest "condenser_api.get_accounts" params (API.seqNo run.1.2))
      "testuser" [key] = Ok signedRequest ∧
    data = Some ("condenser_api.get_accounts",
                 [VMap {[ "__signed" := Signed (SignedReqParams signedRequest) ]}]).
Proof.
  cbn zeta.
  set (E := Sample.externals Sample.node).
  set (params := [VSlice [VString "testuser"]]).
  set (key := "5JLw5dgQAx6rhZEgNN5C2ds1V47RweGshynFSWFbaMohsYsBvE8").
  set (a := API.NewAPI "https://api.steemit.com").
  set (run := API.SignedCall (H := E) a "condenser_api.get_accounts" params "testuser" key []).
  set (data := Some ("condenser_api.get_accounts",
     [VMap {[ "__signed" :=
        VStruct "Signed"
          [("account", VString "testuser"); ("nonce", VInt 0);
           ("params", VSlice params);
           ("signatures", VSlice [VString (Sample.sign_with key)])] ]}])).
  assert (Hin : EvHttp "https://api.steemit.com" data ∈ run.2).
  { vm_compute. apply list_elem_of_further, list_elem_of_here. }
  destruct (SignedCall_outgoing_params (H := E) a "condenser_api.get_accounts"
              params "testuser" key [] run.1.1 run.1.2 run.2
              "https://api.steemit.com" data)
    as (signedRequest & Hsign & _ & Hdata & _).
  - exact (match run as p return p = (p.1.1, p.1.2, p.2) with
           | (_, _, _) => eq_refl
           end).
  - exact Hin.
  - apply not_elem_of_nil.
  - exists data, signedRequest. repeat split; [exact Hin | exact Hsign | exact Hdata].
Defined.

(** C3 fails as stated: an attempt on a WebSocket endpoint is a failed
    attempt, and it leaves the counter where it was. *)
Lemma SignedCall_rejected_attempt_keeps_seqNo :
  let a := API.NewAPI "wss://api.steemit.com" in
  let run :=
    API.SignedCall (H := Sample.externals Sample.node) a "condenser_api.get_accounts"
      [VSlice [VString "testuser"]] "testuser"
      "5JLw5dgQAx6rhZEgNN5C2ds1V47RweGshynFSWFbaMohsYsBvE8" [] in
  run.1.1 = Err (New "signed calls can only be made when using HTTP transport") ∧
  API.seqNo run.1.2 = API.seqNo a ∧
  API.seqNo run.1.2 ≠ wrap_int (API.seqNo a + 1).
Proof.
  cbn zeta. split; [|split].
  - vm_compute. reflexivity.
  - vm_compute. reflexivity.
  - intros Heq. vm_compute in Heq. discriminate Heq.
Qed.

(** C3 as amended: a session of two attempts on an HTTPS endpoint, the
    second of which fails at signing, and the same session on a WebSocket
    endpoint. *)
Lemma session_call_identifiers_witness :
  let E := Sample.externals Sample.node in
  let calls :=
    [mkCall "condenser_api.get_accounts" [VSlice [VString "testuser"]] "testuser"
       "5JLw5dgQAx6rhZEgNN5C2ds1V47RweGshynFSWFbaMohsYsBvE8";
     mkCall "condenser_api.get_accounts" [VSlice [VString "testuser"]] "testuser"
       "invalid-key"] in
  (API.seqNo (session (H := E) (API.NewAPI "https://api.steemit.com") calls []).1 = 2 ∧
   identifiers (session (H := E) (API.NewAPI "https://api.steemit.com") calls []).2 = [1; 2] ∧
   NoDup [1; 2]) ∧
  session (H := E) (API.NewAPI "wss://api.steemit.com") calls [] =
    (API.NewAPI "wss://api.steemit.com", []).
Proof.
  cbn zeta.
  set (E := Sample.externals Sample.node).
  set (calls := [_; _]).
  assert (Hrange : - 2 ^ 63 ≤ 0 < 2 ^ 63) by (vm_compute; split; [discriminate | reflexivity]).
  split.
  - destruct (session_call_identifiers (H := E) (API.NewAPI "https://api.steemit.com")
                calls [] Hrange) as [Haccepted _].
    destruct Haccepted as (Hseq & ids & Hids & -> & Hnodup); [reflexivity|].
    split; [exact Hseq|]. split; [exact Hids|].
    apply Hnodup. vm_compute. discriminate.
  - destruct (session_call_identifiers (H := E) (API.NewAPI "wss://api.steemit.com")
                calls [] Hrange) as [_ Hrejected].
    apply Hrejected. vm_compute. discriminate.
Defined.

(** C10 on a client without an account name, with an unknown key type,
    and with no key imported. *)
Lemma Client_SignedCall_checks_witness :
  let E := Sample.externals Sample.node in
  let anonymous := Client.mkClient (H := E) "https://api.steemit.com" 5 "" ∅ in
  let alice := Client.mkClient (H := E) "https://api.steemit.com" 5 "alice" ∅ in
  Client.SignedCall anonymous "condenser_api.get_accounts" [] "active" [] =
    (Err (New "account name not set"), []) ∧
  Client.SignedCall alice "condenser_api.get_accounts" [] "invalid_key" [] =
    (Err (Errorf "invalid key type: %s" [VString "invalid_key"]), []) ∧
  Client.SignedCall alice "condenser_api.get_accounts" [] "active" [] =
    (Err (Errorf "private key for type '%s' not found" [VString "active"]), []).
Proof.
  cbn zeta.
  set (E := Sample.externals Sample.node).
  split; [|split].
  - apply (Client_SignedCall_checks (H := E)). reflexivity.
  - apply (Client_SignedCall_checks (H := E)).
    + discriminate.
    + intros Hin. rewrite !elem_of_cons, elem_of_nil in Hin.
      destruct Hin as [Heq|[Heq|[Heq|[Heq|[]]]]]; discriminate Heq.
  - apply (Client_SignedCall_checks (H := E)).
    + discriminate.
    + apply list_elem_of_further, list_elem_of_here.
    + reflexivity.
Defined.

(* ===================================================================== *)
(** ** Block ranges against the sample node *)
(* ===================================================================== *)

(** C6 on the range [10000000, 10000003) with every block served at the
    third attempt and the messages arriving in reverse order. *)
Lemma GetBlocks_returns_complete_range_witness :
  let E := Sample.externals Sample.node in
  let c := Client.mkClient (H := E) "https://api.steemit.com" 5 "" ∅ in
  complete_ascending (H := E) 10000000 10000003
    (Client.GetBlocks 10000000 10000003
       (reverse (Client.sent Sample.fetch_third c 10000000 10000003))) ∧
  ∃ fuel0 : nat,
    complete_ascending (H := E) 10000000 10000003
      (API.GetBlocks 10000000 10000003
         (reverse (API.sent (H := E) Sample.fetch_third fuel0 10000000 10000003))).
Proof.
  cbn zeta.
  set (E := Sample.externals Sample.node).
  set (c := Client.mkClient (H := E) "https://api.steemit.com" 5 "" ∅).
  assert (Hlt : 10000000 < 10000003) by reflexivity.
  destruct (GetBlocks_returns_complete_range (H := E) Sample.fetch_third
              10000000 10000003 Hlt) as [Hclient Hapi].
  split.
  - apply (Hclient c).
    + intros i _. exists 2%nat, "block". split; [vm_compute; lia | reflexivity].
    + apply reverse_Permutation.
  - destruct Hapi as [fuel0 Hfuel0].
    + intros i _. exists 2%nat, "block". reflexivity.
    + exists fuel0. apply (Hfuel0 fuel0); [lia | apply reverse_Permutation].
Defined.

(** C5.  With the default budget of five attempts and a node that never
    serves block 10000001, [GetBlocks(10000000, 10000003)] does not return
    an error: it panics, in the order of the block numbers and in the
    reverse order of arrival alike. *)
Theorem Client_GetBlocks_exhausted_block_panics :
  let E := Sample.externals Sample.node in
  let c := Client.mkClient (H := E) "https://api.steemit.com" 5 "" ∅ in
  let sent := Client.sent Sample.fetch_gap c 10000000 10000003 in
  sent = [Some (Blocks.mkWrapBlock (H := E) 10000000 (Some "block")); None;
          Some (Blocks.mkWrapBlock (H := E) 10000002 (Some "block"))] ∧
  Client.GetBlocks 10000000 10000003 sent = Panicked ∧
  Client.GetBlocks 10000000 10000003 (reverse sent) = Panicked.
Proof.
  cbn zeta. split; [|split]; reflexivity.
Qed.

(* ===================================================================== *)
(** ** Transactions against the sample node *)
(* ===================================================================== *)

(** C7.  In the [ClientInterface] revision the expiration of the prepared
    vote is the clock reading plus 600 seconds in the local zone: it is not
    the UTC time plus 600 seconds. *)
Theorem Broadcast_prepareTransaction_expiration_local :
  let E := Sample.externals Sample.node in
  let c := Client.mkClient (H := E) Sample.endpoint 5 "" ∅ in
  let b := Broadcast.NewBroadcast (Broadcast.Client_as_ClientInterface c) Sample.endpoint in
  let run := Broadcast.prepareTransaction b [Sample.vote] [] in
  ∃ tx,
    run.1 = Ok tx ∧
    Expiration (embedded tx) =
      Some (mkTime (clock (Externals := E) run.2 + 600 * Second) Local) ∧
    Expiration (embedded tx) ≠
      Some (Time_Add (Time_UTC (time_Now (H := E) run.2)) (600 * Second)).
Proof.
  cbn zeta. eexists. split; [vm_compute; reflexivity|]. split.
  - vm_compute. reflexivity.
  - intros Heq. vm_compute in Heq. discriminate Heq.
Qed.

(** C8.  In the [ClientInterface] revision the extensions of the prepared
    vote are the nil slice, not the empty one. *)
Theorem Broadcast_prepareTransaction_extensions_nil :
  let E := Sample.externals Sample.node in
  let c := Client.mkClient (H := E) Sample.endpoint 5 "" ∅ in
  let b := Broadcast.NewBroadcast (Broadcast.Client_as_ClientInterface c) Sample.endpoint in
  ∃ tx,
    (Broadcast.prepareTransaction b [Sample.vote] []).1 = Ok tx ∧
    Extensions (embedded tx) = None ∧
    Extensions (embedded tx) ≠ Some [].
Proof.
  cbn zeta. eexists. split; [vm_compute; reflexivity|]. split.
  - reflexivity.
  - discriminate.
Qed.

(** C9 fails as stated: when the block at lastIrreversibleBlockNum carries
    no previous-block id, [prepareTransaction] succeeds with the prefix of
    the all-zero id, which is not a prefix of that block's previous-block
    id. *)
Lemma prepareTransaction_prefix_of_zero_id :
  let E := Sample.externals Sample.node_without_previous in
  let b := BroadcastLIB.NewBroadcast Sample.endpoint in
  ∃ tx block w1,
    (BroadcastLIB.prepareTransaction (H := E) b [Sample.vote] []).1 = Ok tx ∧
    (API.GetBlock (H := E) (BroadcastLIB.api b) 69990 w1).1 = Ok block ∧
    w1 = [EvHttp Sample.endpoint
            (Some ("condenser_api.get_dynamic_global_properties", []))] ∧
    Previous block = "" ∧
    RefBlockPrefix (embedded tx) = 0 ∧
    transaction_RefBlockPrefix (Externals := E) (Previous block) ≠
      Ok (RefBlockPrefix (embedded tx)).
Proof.
  cbn zeta. eexists _, _, _.
  split; [vm_compute; reflexivity|].
  split; [vm_compute; reflexivity|].
  split; [reflexivity|].
  split; [reflexivity|].
  split; [reflexivity|].
  intros Heq. vm_compute in Heq. discriminate Heq.
Qed.

(** C9 as amended, on the sample node in both revisions. *)
Lemma prepareTransaction_reference_block_witness :
  let E := Sample.externals Sample.node in
  let c := Client.mkClient (H := E) Sample.endpoint 5 "" ∅ in
  let b := Broadcast.NewBroadcast (Broadcast.Client_as_ClientInterface c) Sample.endpoint in
  let b' := BroadcastLIB.NewBroadcast Sample.endpoint in
  (∃ tx, (Broadcast.prepareTransaction b [Sample.vote] []).1 = Ok tx ∧
         RefBlockNum (embedded tx) = Z.land 70000 0xFFFF ∧
         transaction_RefBlockPrefix (Externals := E)
           "000111700a1b2c3d4e5f60718293a4b5c6d7e8f9" =
           Ok (RefBlockPrefix (embedded tx))) ∧
  (∃ tx, (BroadcastLIB.prepareTransaction (H := E) b' [Sample.vote] []).1 = Ok tx ∧
         RefBlockNum (embedded tx) = Z.land (69990 - 1) 0xFFFF ∧
         transaction_RefBlockPrefix (Externals := E)
           "00011165a1b2c3d4e5f60718293a4b5c6d7e8f90" =
           Ok (RefBlockPrefix (embedded tx))).
Proof.
  cbn zeta.
  set (E := Sample.externals Sample.node).
  set (c := Client.mkClient (H := E) Sample.endpoint 5 "" ∅).
  set (b := Broadcast.NewBroadcast (Broadcast.Client_as_ClientInterface c) Sample.endpoint).
  set (b' := BroadcastLIB.NewBroadcast Sample.endpoint).
  destruct (prepareTransaction_reference_block (H := E)) as [Hhead Hlib].
  split.
  - destruct (Broadcast.prepareTransaction b [Sample.vote] []) as [r w'] eqn:Hrun.
    pose proof Hrun as Hvalue. vm_compute in Hvalue.
    destruct r as [tx|err]; [|discriminate Hvalue].
    destruct (Hhead b [Sample.vote] [] w' tx Hrun) as (dgp & Hdgp & Hnum & Hprefix).
    vm_compute in Hdgp. injection Hdgp as <- _.
    exists tx. split; [reflexivity|]. split; [exact Hnum | exact Hprefix].
  - destruct (BroadcastLIB.prepareTransaction (H := E) b' [Sample.vote] []) as [r w'] eqn:Hrun.
    pose proof Hrun as Hvalue. vm_compute in Hvalue.
    destruct r as [tx|err]; [|discriminate Hvalue].
    destruct (Hlib b' [Sample.vote] [] w' tx Hrun)
      as (dgp & w1 & block & Hdgp & Hblock & Hnum & Hprev & _).
    vm_compute in Hdgp. injection Hdgp as <- <-.
    vm_compute in Hblock. injection Hblock as <- _.
    exists tx. split; [reflexivity|]. split; [exact Hnum|].
    apply Hprev. discriminate.
Defined.



(* ===================================================================== *)
(** ** Further properties of api/api.go: calls *)
(* ===================================================================== *)

Section CallProperties.
Context `{Externals}.

Lemma scheme_prefix (url : string) :
  ∀ x, scheme url = Some x → HasPrefix url x = true.
Proof.
  induction url as [|c rest IH]; intros x Hs; [discriminate|].
  cbn [scheme] in Hs.
  destruct (HasPrefix (String c rest) "://") eqn:Hp.
  - by injection Hs as <-.
  - destruct (scheme rest) as [x'|] eqn:Hrest; [|discriminate].
    injection Hs as <-. unfold HasPrefix. cbn [String.prefix].
    destruct (ascii_dec c c); [|done]. by apply IH.
Qed.

(** X1.  The transport check accepts exactly the URLs whose scheme is
    http:// or https://, spelled in lower case; every other URL gets the
    one transport error. *)
Theorem validateTransport_accepts_http_schemes (a : API.API) :
  (API.validateTransportForSignedCall a = None ↔
     scheme (API.url a) = Some "http://" ∨ scheme (API.url a) = Some "https://") ∧
  (API.validateTransportForSignedCall a = None ∨
   API.validateTransportForSignedCall a =
     Some (New "signed calls can only be made when using HTTP transport")).
Proof.
  unfold API.validateTransportForSignedCall.
  destruct (HasPrefix (API.url a) "http://") eqn:E1.
  { split; [|by left]. split; [|done]. intros _. left. by apply HasPrefix_http_scheme. }
  destruct (HasPrefix (API.url a) "https://") eqn:E2.
  { split; [|by left]. split; [|done]. intros _. right. by apply HasPrefix_https_scheme. }
  split; [|by right]. split; [done|].
  intros [Hs|Hs]; apply scheme_prefix in Hs; congruence.
Qed.

(** X2.  A key that [rpc.Sign] refuses never reaches the network: the call
    returns the signing error, wrapped, after one [rpc.Sign] call and no
    HTTP request, and the call identifier it used is spent. *)
Theorem SignedCall_sign_failure_posts_nothing (a : API.API) (method : string)
    (params : list Value) (account privateKey : string) (w : World) (err : error) :
  let id := wrap_int (API.seqNo a + 1) in
  let request := mkRpcRequest method params id in
  API.validateTransportForSignedCall a = None →
  rpc_Sign w request account [privateKey] = Err err →
  API.SignedCall a method params account privateKey w =
    (Err (Wrapf err "failed to sign request for method %s" [VString method]),
     API.mkAPI (API.url a) (API.maxRetry a) id,
     w ++ [EvRpcSign request account [privateKey]]).
Proof.
  cbn zeta. intros Hv Hsign. unfold API.SignedCall. rewrite Hv. cbn zeta.
  cbn [API.seqNo API.url API.maxRetry]. by rewrite Hsign.
Qed.

(** X3.  A response that [SignedCall] returns without error is the node's
    answer to the one request the call posted, it carries no error of the
    node, and the call made exactly one [rpc.Sign] call and one HTTP
    request, in this order. *)
Theorem SignedCall_Ok_is_node_answer (a : API.API) (method : string)
    (params : list Value) (account privateKey : string) (w : World)
    (r : RpcResultData) (a' : API.API) (w' : World) :
  let request := mkRpcRequest method params (wrap_int (API.seqNo a + 1)) in
  let signed := w ++ [EvRpcSign request account [privateKey]] in
  API.SignedCall a method params account privateKey w = (Ok r, a', w') →
  ∃ signedRequest,
    let data :=
      Some (method, [VMap {[ "__signed" := Signed (SignedReqParams signedRequest) ]}]) in
    rpc_Sign w request account [privateKey] = Ok signedRequest ∧
    jsonrpc2_post signed (API.url a) data = Ok r ∧
    Error r = None ∧
    a' = API.mkAPI (API.url a) (API.maxRetry a) (wrap_int (API.seqNo a + 1)) ∧
    w' = signed ++ [EvHttp (API.url a) data].
Proof.
  cbn zeta. unfold API.SignedCall.
  destruct (API.validateTransportForSignedCall a); [discriminate|]. cbn zeta.
  cbn [API.seqNo API.url API.maxRetry].
  destruct (rpc_Sign w _ account [privateKey]) as [signedRequest|e]; [|discriminate].
  unfold jsonrpc2.BuildSendData, jsonrpc2.Send, jsonrpc2.NewClient.
  cbn [jsonrpc2.Url jsonrpc2.SendData].
  destruct (jsonrpc2_encode method _); [discriminate|].
  destruct (jsonrpc2_post _ _ _) as [rpcResponse|e] eqn:Hpost; [|discriminate].
  destruct (Error rpcResponse) eqn:Herror; [discriminate|].
  intros [= <- <- <-]. by exists signedRequest.
Qed.

(** X4.  [SignedCallWithResult] and [CallWithResult] do to the receiver and
    to the world exactly what [SignedCall] and [Call] do; an error of the
    plain call comes back unchanged, and a decoded value is the decoding of
    the marshalled result of the plain call's response. *)
Theorem WithResult_runs_the_plain_call (a : API.API) (apiName method : string)
    (params : list Value) (account privateKey : string) (w : World) :
  let signed := API.SignedCall a method params account privateKey w in
  let signed' := API.SignedCallWithResult a method params account privateKey w in
  let plain := API.Call a apiName method params w in
  let plain' := API.CallWithResult a apiName method params w in
  (signed'.1.2 = signed.1.2 ∧ signed'.2 = signed.2 ∧
   (∀ e, signed.1.1 = Err e → signed'.1.1 = Err e) ∧
   (∀ v, signed'.1.1 = Ok v →
      ∃ r tmp, signed.1.1 = Ok r ∧ json_Marshal (Result r) = Ok tmp ∧
               json_Unmarshal tmp = Ok v)) ∧
  (plain'.2 = plain.2 ∧
   (∀ e, plain.1 = Err e → plain'.1 = Err e) ∧
   (∀ v, plain'.1 = Ok v →
      ∃ r tmp, plain.1 = Ok r ∧ json_Marshal (Result r) = Ok tmp ∧
               json_Unmarshal tmp = Ok v)).
Proof.
  cbn zeta. split.
  - unfold API.SignedCallWithResult.
    destruct (API.SignedCall a method params account privateKey w) as [[[r|e] a1] w1];
      cbn [fst snd].
    + destruct (json_Marshal (Result r)) as [tmp|e1] eqn:Hm; cbn [fst snd].
      * destruct (json_Unmarshal tmp) as [v0|e2] eqn:Hu; cbn [fst snd].
        -- do 2 (split; [done|]). split; [done|]. intros v [= <-]. eauto.
        -- do 2 (split; [done|]). split; done.
      * do 2 (split; [done|]). split; done.
    + do 2 (split; [done|]). split; [by intros ? [= ->] | done].
  - unfold API.CallWithResult.
    destruct (API.Call a apiName method params w) as [[r|e] w1]; cbn [fst snd].
    + destruct (json_Marshal (Result r)) as [tmp|e1] eqn:Hm; cbn [fst snd].
      * destruct (json_Unmarshal tmp) as [v0|e2] eqn:Hu; cbn [fst snd].
        -- split; [done|]. split; [done|]. intros v [= <-]. eauto.
        -- split; [done|]. split; done.
      * split; [done|]. split; done.
    + split; [done|]. split; [by intros ? [= ->] | done].
Qed.

(** X5.  [Call] posts the caller's parameters as they are, under the
    method name apiName.method, in one request to the configured URL; when
    the request cannot be encoded it posts nothing and fails.  It returns a
    response exactly when the node answered that request with one that
    carries no error. *)
Theorem Call_posts_params_unchanged (a : API.API) (apiName method : string)
    (params : list Value) (w : World) :
  let fullMethod := apiName +:+ "." +:+ method in
  let run := API.Call a apiName method params w in
  (jsonrpc2_encode fullMethod params ≠ None → run.2 = w ∧ ∃ e, run.1 = Err e) ∧
  (jsonrpc2_encode fullMethod params = None →
     run.2 = w ++ [EvHttp (API.url a) (Some (fullMethod, params))] ∧
     ∀ r, run.1 = Ok r ↔
          jsonrpc2_post w (API.url a) (Some (fullMethod, params)) = Ok r ∧
          Error r = None).
Proof.
  cbn zeta. unfold API.Call, jsonrpc2.BuildSendData, jsonrpc2.Send, jsonrpc2.NewClient.
  cbn [jsonrpc2.Url jsonrpc2.SendData].
  destruct (jsonrpc2_encode _ params) as [e|]; cbn [fst snd].
  { split; [eauto | done]. }
  split; [done|]. intros _.
  destruct (jsonrpc2_post _ _ _) as [rpcResponse|e]; cbn [fst snd].
  - destruct (Error rpcResponse) eqn:Herror; cbn [fst snd].
    + split; [done|]. intros r. split; [done|]. intros [[= <-] ?]. congruence.
    + split; [done|]. intros r. split; [by intros [= <-] | by intros [[= <-] _]].
  - split; [done|]. intros r. split; [done | by intros [? _]].
Qed.

Lemma identifiers_request (w : World) (url : string)
    (data : option (string * list Value)) :
  identifiers (w ++ [EvHttp url data]) = identifiers w.
Proof. rewrite identifiers_app. cbn. apply app_nil_r. Qed.

(** X24.  The queries of the API and of the client
    ([GetDynamicGlobalProperties], [GetBlock], [GetTransactionHex], [Call],
    [BroadcastSync]) sign nothing and post one request at most, to the
    configured URL, under their own method name and with their own
    parameters: the block number, the transaction embedded in the signed
    transaction, or the caller's parameters as given.  A query that returns
    a value has posted its request. *)
Theorem queries_post_one_request (a : API.API) (c : Client.Client) (blockNum : Z)
    (tx : SignedTransaction) (apiName method : string) (params : list Value)
    (w : World) :
  plain_query (API.url a) "condenser_api.get_dynamic_global_properties" [] w
    (API.GetDynamicGlobalProperties a w) ∧
  plain_query (API.url a) "condenser_api.get_block" [VInt blockNum] w
    (API.GetBlock a blockNum w) ∧
  plain_query (API.url a) "condenser_api.get_transaction_hex"
    [Transaction_any (embedded tx)] w (API.GetTransactionHex a tx w) ∧
  plain_query (API.url a) (apiName +:+ "." +:+ method) params w
    (API.Call a apiName method params w) ∧
  plain_query (Client.Url c) "condenser_api.get_dynamic_global_properties" [] w
    (Client.GetDynamicGlobalProperties c w) ∧
  plain_query (Client.Url c) "condenser_api.broadcast_transaction_synchronous" params w
    (Client.BroadcastSync c params w).
Proof.
  unfold plain_query, API.GetDynamicGlobalProperties, API.GetBlock,
    API.GetTransactionHex, API.Call, Client.GetDynamicGlobalProperties,
    Client.BroadcastSync, Client.GetRpcClient, jsonrpc2.BuildSendData,
    jsonrpc2.Send, jsonrpc2.NewClient.
  cbn [jsonrpc2.Url jsonrpc2.SendData].
  repeat split; query_cases;
    first [done | by left | by right | apply identifiers_request].
Qed.

End CallProperties.

(* ===================================================================== *)
(** ** Further properties of the block-range fetch *)
(* ===================================================================== *)

Section RangeProperties.
Context `{Externals}.

(** The receive loop has no way to its [return blocks, err]: a message
    that was just stored is found again. *)
Lemma receive_never_errors (n : nat) :
  ∀ ch m err, Blocks.receive n ch m ≠ Returned (inr err).
Proof.
  induction n as [|n IH]; intros ch m err; [discriminate|].
  cbn [Blocks.receive]. destruct ch as [|[r|] ch]; [discriminate| |discriminate].
  unfold Blocks.blocksMap_get at 1. rewrite lookup_insert_eq. cbn. apply IH.
Qed.

(** With fewer messages than goroutines, and none of them nil, the receive
    loop stays on the channel. *)
Lemma receive_short_blocks (ch : list (option Blocks.WrapBlock)) :
  ∀ n m, None ∉ ch → (length ch < n)%nat → Blocks.receive n ch m = Blocked.
Proof.
  induction ch as [|x ch IH]; intros n m Hnil Hlen.
  - destruct n; [cbn in Hlen; lia | reflexivity].
  - apply not_elem_of_cons in Hnil as [Hx Hnil].
    destruct x as [r|]; [|done].
    destruct n as [|n]; [cbn in Hlen; lia|]. cbn [Blocks.receive].
    unfold Blocks.blocksMap_get at 1. rewrite lookup_insert_eq. cbn.
    apply IH; [done | cbn in Hlen; lia].
Qed.

Lemma GetBlocks_outcomes (from to : Z) (ch : list (option Blocks.WrapBlock)) :
  (to ≤ from →
     Blocks.GetBlocks from to ch =
       Returned ([], Some (Errorf "unexpected params {from: %v}, {to: %v}\n"
                                  [VInt from; VInt to]))) ∧
  (from < to → ∀ blocks err,
     Blocks.GetBlocks from to ch = Returned (blocks, err) →
     err = None ∧ length blocks = Z.to_nat (to - from)).
Proof.
  unfold Blocks.GetBlocks. split.
  - intros Hle. destruct (from >=? to) eqn:Hge; [done | lia].
  - intros Hlt blocks err. destruct (from >=? to) eqn:Hge; [lia|].
    destruct (Blocks.receive _ ch ∅) as [[m|e]| |] eqn:Hrun; [| |done..].
    + intros [= <- <-]. by rewrite length_fmap, length_seqZ.
    + by apply receive_never_errors in Hrun.
Qed.

(** X6.  [GetBlocks] returns an error for one reason only, a range with
    from >= to, which it refuses at once with no blocks, whatever is on the
    channel.  On a range with from < to it never returns an error: the
    "get block error" return cannot be reached, and when the call returns,
    it returns to - from entries. *)
Theorem GetBlocks_error_only_for_empty_range (from to : Z)
    (ch : list (option Blocks.WrapBlock)) :
  let refused :=
    Returned ([], Some (Errorf "unexpected params {from: %v}, {to: %v}\n"
                               [VInt from; VInt to])) in
  (to ≤ from → API.GetBlocks from to ch = refused ∧ Client.GetBlocks from to ch = refused) ∧
  (from < to → ∀ blocks err,
     API.GetBlocks from to ch = Returned (blocks, err) ∨
     Client.GetBlocks from to ch = Returned (blocks, err) →
     err = None ∧ length blocks = Z.to_nat (to - from)).
Proof.
  cbn zeta. unfold API.GetBlocks, Client.GetBlocks.
  destruct (GetBlocks_outcomes from to ch) as [Hrefused Hreturned].
  split; [by split; apply Hrefused|].
  intros Hlt blocks err [Hrun|Hrun]; by apply Hreturned.
Qed.

Section Fetch.
Variable fetch : Z → nat → result ApiBlock.

Lemma API_wrapGetBlock_from_never (blockNum : Z) (fuel : nat) :
  (∀ k, ∃ e, fetch blockNum k = Err e) →
  ∀ attempt, API.wrapGetBlock_from fetch blockNum attempt fuel = None.
Proof.
  intros Hfail. induction fuel as [|fuel IH]; intros attempt; [reflexivity|].
  cbn [API.wrapGetBlock_from]. destruct (Hfail attempt) as [e ->]. apply IH.
Qed.

Lemma API_wrapGetBlock_from_not_nil (blockNum : Z) (fuel : nat) :
  ∀ attempt, API.wrapGetBlock_from fetch blockNum attempt fuel ≠ Some None.
Proof.
  induction fuel as [|fuel IH]; intros attempt; [discriminate|].
  cbn [API.wrapGetBlock_from]. destruct (fetch blockNum attempt); [discriminate|].
  apply IH.
Qed.

Lemma API_sent_not_nil (fuel : nat) (from to : Z) :
  None ∉ API.sent fetch fuel from to.
Proof.
  unfold API.sent. intros (i & _ & Hi)%list_elem_of_omap.
  by apply API_wrapGetBlock_from_not_nil in Hi.
Qed.

Lemma length_omap_lt {A B : Type} (f : A → option B) (l : list A) (x : A) :
  x ∈ l → f x = None → (length (omap f l) < length l)%nat.
Proof.
  assert (Hle : ∀ l', (length (omap f l') ≤ length l')%nat).
  { induction l' as [|y l' IH]; [done|]. cbn. destruct (f y); cbn; lia. }
  induction l as [|y l IH]; intros Hin Hx; [by apply elem_of_nil in Hin|].
  apply elem_of_cons in Hin as [<-|Hin].
  - cbn. rewrite Hx. pose proof (Hle l). lia.
  - cbn. specialize (IH Hin Hx). destruct (f y); cbn; lia.
Qed.

(** X7.  With the unbounded retries of api/api.go, a block of the range
    that the node never serves keeps [GetBlocks] from returning: however
    long the goroutines have been retrying and in whatever order their
    messages arrive, the call is still waiting on the channel. *)
Theorem API_GetBlocks_waits_for_unserved_block (from to blockNum : Z) :
  from ≤ blockNum < to →
  (∀ k, ∃ e, fetch blockNum k = Err e) →
  ∀ (fuel : nat) (ch : list (option Blocks.WrapBlock)),
    ch ≡ₚ API.sent fetch fuel from to →
    API.GetBlocks from to ch = Blocked.
Proof.
  intros Hin Hfail fuel ch Hperm. unfold API.GetBlocks, Blocks.GetBlocks.
  destruct (from >=? to) eqn:Hge; [lia|].
  rewrite receive_short_blocks; [done | |].
  - rewrite Hperm. apply API_sent_not_nil.
  - rewrite Hperm. unfold API.sent.
    rewrite <- (length_seqZ from (to - from)).
    apply (length_omap_lt _ _ blockNum).
    + apply elem_of_seqZ. lia.
    + by apply API_wrapGetBlock_from_never.
Qed.

Lemma retry_first_served (blockNum : Z) (n : nat) :
  ∀ (attempt k : nat) (b : ApiBlock) (block : option ApiBlock) (err : option error),
  (attempt ≤ k < attempt + n)%nat →
  fetch blockNum k = Ok b →
  (∀ j, (attempt ≤ j < k)%nat → ∃ e, fetch blockNum j = Err e) →
  Client.retry fetch blockNum n attempt block err = (Some b, None).
Proof.
  induction n as [|n IH]; intros attempt k b block err Hk Hb Hfail; [lia|].
  cbn [Client.retry]. destruct (decide (k = attempt)) as [->|Hne].
  - by rewrite Hb.
  - destruct (Hfail attempt ltac:(lia)) as [e ->].
    apply (IH (S attempt) k b); [lia | done |].
    intros j Hj. apply Hfail. lia.
Qed.

Lemma API_wrapGetBlock_from_first_served (blockNum : Z) (fuel : nat) :
  ∀ (attempt k : nat) (b : ApiBlock),
  (attempt ≤ k)%nat →
  fetch blockNum k = Ok b →
  (∀ j, (attempt ≤ j < k)%nat → ∃ e, fetch blockNum j = Err e) →
  (k - attempt < fuel)%nat →
  API.wrapGetBlock_from fetch blockNum attempt fuel =
    Some (Some (Blocks.mkWrapBlock blockNum (Some b))).
Proof.
  induction fuel as [|fuel IH]; intros attempt k b Hle Hb Hfail Hfuel; [lia|].
  cbn [API.wrapGetBlock_from]. destruct (decide (k = attempt)) as [->|Hne].
  - by rewrite Hb.
  - destruct (Hfail attempt ltac:(lia)) as [e ->].
    apply (IH (S attempt) k b); [lia | done | | lia].
    intros j Hj. apply Hfail. lia.
Qed.

Lemma API_wrapGetBlock_all_first_served (first : Z → nat) (blk : Z → ApiBlock)
    (l : list Z) :
  (∀ i, i ∈ l → first_served fetch i (first i) (blk i)) →
  ∃ fuel0 : nat, ∀ fuel : nat, (fuel0 ≤ fuel)%nat → ∀ i, i ∈ l →
    API.wrapGetBlock fetch fuel i =
      Some (Some (Blocks.mkWrapBlock i (Some (blk i)))).
Proof.
  induction l as [|i l IH]; intros Hall.
  - exists 0%nat. intros fuel _ j Hj. by apply elem_of_nil in Hj.
  - destruct IH as [fuel0 IH]; [intros j Hj; apply Hall; by right|].
    destruct (Hall i ltac:(left)) as [Hb Hfail].
    exists (Nat.max (S (first i)) fuel0). intros fuel Hfuel j Hj.
    apply elem_of_cons in Hj as [->|Hj].
    + apply (API_wrapGetBlock_from_first_served i fuel 0 (first i) (blk i));
        [lia | done | | lia].
      intros j Hj. apply Hfail. lia.
    + apply IH; [lia | done].
Qed.

(** X8.  What [GetBlocks] returns for a block number is what the node
    served for that number at the first attempt that succeeded: entry i of
    the result carries block number from + i and the block of that attempt,
    for the client's bounded retries (first success within the budget) and
    for the API's unbounded retries (given the time to get there), whatever
    the order of arrival. *)
Theorem GetBlocks_returns_what_was_served (from to : Z) (first : Z → nat)
    (blk : Z → ApiBlock) :
  let served :=
    (λ i, Some (Blocks.mkWrapBlock i (Some (blk i)))) <$> seqZ from (to - from) in
  from < to →
  (∀ i, from ≤ i < to → first_served fetch i (first i) (blk i)) →
  (∀ (c : Client.Client) (ch : list (option Blocks.WrapBlock)),
     (∀ i, from ≤ i < to → (first i < Z.to_nat (Client.MaxRetry c))%nat) →
     ch ≡ₚ Client.sent fetch c from to →
     Client.GetBlocks from to ch = Returned (served, None)) ∧
  (∃ fuel0 : nat, ∀ (fuel : nat) (ch : list (option Blocks.WrapBlock)),
     (fuel0 ≤ fuel)%nat →
     ch ≡ₚ API.sent fetch fuel from to →
     API.GetBlocks from to ch = Returned (served, None)).
Proof.
  cbn zeta. intros Hlt Hserved.
  pose (got := λ i, Blocks.mkWrapBlock i (Some (blk i))).
  assert (Hfmap : (λ i, Some (Blocks.mkWrapBlock i (Some (blk i))))
                    <$> seqZ from (to - from)
                  = Some <$> (got <$> seqZ from (to - from))).
  { by rewrite <- list_fmap_compose. }
  split.
  - intros c ch Hbudget Hperm. unfold Client.GetBlocks.
    rewrite Hfmap.
    apply (GetBlocks_complete got); [done | done |].
    rewrite Hperm. unfold Client.sent.
    erewrite list_fmap_ext; [reflexivity|].
    intros _ i Hi%list_elem_of_lookup_2.
    apply elem_of_seqZ in Hi. assert (Hr : from ≤ i < to) by lia.
    destruct (Hserved i Hr) as [Hb Hfail].
    unfold Client.wrapGetBlock.
    rewrite (retry_first_served i _ 0 (first i) (blk i)); [done | | done |].
    + specialize (Hbudget i Hr). lia.
    + intros j Hj. apply Hfail. lia.
  - destruct (API_wrapGetBlock_all_first_served first blk (seqZ from (to - from)))
      as [fuel0 Hfuel0].
    { intros i Hi. apply elem_of_seqZ in Hi. apply Hserved. lia. }
    exists fuel0. intros fuel ch Hfuel Hperm. unfold API.GetBlocks.
    rewrite Hfmap.
    apply (GetBlocks_complete got); [done | done |].
    assert (Hsent : API.sent fetch fuel from to = (Some ∘ got) <$> seqZ from (to - from)).
    { unfold API.sent. specialize (Hfuel0 fuel Hfuel).
      revert Hfuel0. generalize (seqZ from (to - from)) as l.
      induction l as [|i l IH]; intros Hall; [reflexivity|].
      cbn. rewrite (Hall i) by left. cbn. f_equal.
      apply IH. intros j Hj. apply Hall. by right. }
    by rewrite Hperm, Hsent.
Qed.

(** X9.  A client whose [MaxRetry] is zero or negative never calls
    [GetBlock]: each goroutine sends its block number with a nil block, and
    [GetBlocks] returns to - from such entries and no error, whatever the
    node would have served. *)
Theorem Client_GetBlocks_without_budget (c : Client.Client) (from to : Z)
    (ch : list (option Blocks.WrapBlock)) :
  Client.MaxRetry c ≤ 0 →
  from < to →
  ch ≡ₚ Client.sent fetch c from to →
  Client.GetBlocks from to ch =
    Returned ((λ i, Some (Blocks.mkWrapBlock i None)) <$> seqZ from (to - from), None).
Proof.
  intros Hbudget Hlt Hperm. unfold Client.GetBlocks.
  pose (got := λ i : Z, Blocks.mkWrapBlock i None).
  assert (Hfmap : (λ i, Some (Blocks.mkWrapBlock i None)) <$> seqZ from (to - from)
                  = Some <$> (got <$> seqZ from (to - from))).
  { by rewrite <- list_fmap_compose. }
  rewrite Hfmap.
  apply (GetBlocks_complete got); [done | done |].
  rewrite Hperm. unfold Client.sent.
  erewrite list_fmap_ext; [reflexivity|].
  intros _ i _. unfold Client.wrapGetBlock.
  replace (Z.to_nat (Client.MaxRetry c)) with 0%nat by lia. reflexivity.
Qed.

(** X25.  [MaxRetry] counts attempts: a block the node first serves at
    attempt k (counting from 0) is fetched by a client whose [MaxRetry] is
    above k, with the block of that attempt; a client with a budget of at
    least one attempt and at most k sends the nil message instead. *)
Theorem Client_wrapGetBlock_budget (c : Client.Client) (blockNum : Z) (k : nat)
    (b : ApiBlock) :
  first_served fetch blockNum k b →
  ((k < Z.to_nat (Client.MaxRetry c))%nat →
     Client.wrapGetBlock fetch c blockNum =
       Some (Blocks.mkWrapBlock blockNum (Some b))) ∧
  (0 < Client.MaxRetry c → (Z.to_nat (Client.MaxRetry c) ≤ k)%nat →
     Client.wrapGetBlock fetch c blockNum = None).
Proof.
  intros [Hb Hfail]. split.
  - intros Hk. unfold Client.wrapGetBlock.
    rewrite (retry_first_served blockNum _ 0 k b); [done | lia | done |].
    intros j Hj. apply Hfail. lia.
  - intros Hbudget Hk. apply Client_wrapGetBlock_exhausted; [done|].
    intros j Hj. apply Hfail. lia.
Qed.

End Fetch.
End RangeProperties.

(* ===================================================================== *)
(** ** Further properties of client/client.go: keys and signed calls *)
(* ===================================================================== *)

Section ClientKeyProperties.
Context `{Externals}.

(** X10.  [ImportWif] changes the client only when it succeeds.  A key
    type outside owner, active, posting and memo is refused before the WIF
    is looked at; for a key type of the set, a WIF that does not decode
    comes back with the decoder's own error. *)
Theorem ImportWif_failure_changes_nothing (c : Client.Client) (keyType privWif : string) :
  let roles :=
    [Consts.OWNER_KEY; Consts.ACTIVE_KEY; Consts.POSTING_KEY; Consts.MEMO_KEY] in
  (∀ e c', Client.ImportWif c keyType privWif = (Some e, c') → c' = c) ∧
  (keyType ∉ roles →
     Client.ImportWif c keyType privWif =
       (Some (New "unexpected keyType when import wif\n"), c)) ∧
  (keyType ∈ roles → ∀ err, FromWif privWif = Err err →
     Client.ImportWif c keyType privWif = (Some err, c)).
Proof.
  cbn zeta. unfold Client.ImportWif.
  destruct (Client.checkKeyType keyType) eqn:Hk; cbn [negb].
  - apply checkKeyType_roles in Hk. split; [|split].
    + intros e c'. destruct (FromWif privWif); [discriminate | by intros [= _ <-]].
    + done.
    + by intros _ err ->.
  - assert (Hout : keyType ∉ [Consts.OWNER_KEY; Consts.ACTIVE_KEY;
                              Consts.POSTING_KEY; Consts.MEMO_KEY]).
    { intros Hin%checkKeyType_roles. congruence. }
    split; [|split]; [by intros e c' [= _ <-] | done | done].
Qed.

(** X11.  After a successful [ImportWif] the decoded key is the one stored
    under the key type, a key stored there before is replaced, the keys of
    the other types are the ones stored before, and the URL, the retry
    budget and the account name are unchanged. *)
Theorem ImportWif_stores_key (c c' : Client.Client) (keyType privWif : string) :
  Client.ImportWif c keyType privWif = (None, c') →
  ∃ priv,
    FromWif privWif = Ok priv ∧
    keyType ∈ [Consts.OWNER_KEY; Consts.ACTIVE_KEY; Consts.POSTING_KEY; Consts.MEMO_KEY] ∧
    Client.Wifs c' !! keyType = Some priv ∧
    (∀ other, other ≠ keyType → Client.Wifs c' !! other = Client.Wifs c !! other) ∧
    Client.Url c' = Client.Url c ∧
    Client.MaxRetry c' = Client.MaxRetry c ∧
    Client.AccountName c' = Client.AccountName c.
Proof.
  unfold Client.ImportWif.
  destruct (Client.checkKeyType keyType) eqn:Hk; cbn [negb]; [|discriminate].
  destruct (FromWif privWif) as [priv|err]; [|discriminate].
  intros [= <-]. exists priv. cbn.
  split; [done|]. split; [by apply checkKeyType_roles|].
  split; [by rewrite lookup_insert_eq|].
  split; [|done]. intros other Hne. by rewrite lookup_insert_ne.
Qed.

(** A signed call of the client that is past the three checks is a signed
    call on a fresh [API]. *)
Lemma Client_SignedCall_past_checks (c : Client.Client) (method : string)
    (params : list Value) (keyType : string) (w : World) (priv : PrivateKey) :
  Client.AccountName c ≠ "" →
  Client.checkKeyType keyType = true →
  Client.Wifs c !! keyType = Some priv →
  Client.SignedCall c method params keyType w =
    let run := API.SignedCall (API.mkAPI (Client.Url c) (Client.MaxRetry c) 0)
                 method params (Client.AccountName c) (ToWif priv) w in
    (run.1.1, run.2).
Proof.
  intros Hname Hrole Hkey. unfold Client.SignedCall.
  rewrite decide_False by done. rewrite Hrole, Hkey. cbn [negb].
  unfold Client.GetAPI, API.SetMaxRetry, API.NewAPI. cbn [API.url API.seqNo].
  by destruct (API.SignedCall _ method params _ _ w) as [[r a] w'].
Qed.

(** X12.  A key imported with [ImportWif] is the key the next signed call
    for that key type signs with: the call passes the three checks and is
    the signed call of a fresh [API] on the client's URL, for the client's
    account, with the WIF of the stored key. *)
Theorem ImportWif_then_SignedCall (c c' : Client.Client) (keyType privWif : string)
    (method : string) (params : list Value) (w : World) :
  Client.ImportWif c keyType privWif = (None, c') →
  Client.AccountName c ≠ "" →
  ∃ priv,
    FromWif privWif = Ok priv ∧
    Client.SignedCall c' method params keyType w =
      let run := API.SignedCall (API.mkAPI (Client.Url c) (Client.MaxRetry c) 0)
                   method params (Client.AccountName c) (ToWif priv) w in
      (run.1.1, run.2).
Proof.
  unfold Client.ImportWif. intros Himport Hname.
  destruct (Client.checkKeyType keyType) eqn:Hk; cbn [negb] in Himport; [|discriminate].
  destruct (FromWif privWif) as [priv|err]; [|discriminate].
  injection Himport as <-. exists priv. split; [done|].
  rewrite (Client_SignedCall_past_checks _ method params keyType w priv);
    [done | done | done |].
  cbn. by rewrite lookup_insert_eq.
Qed.

(** X13.  Every signed call of the client runs on an [API] of its own, so
    the call identifier is 1 each time: past the three checks and the
    transport check, the request handed to [rpc.Sign] carries the
    identifier 1, whatever calls the client has made before.  On a URL the
    transport check refuses, the call fails with the transport error and
    nothing is signed or sent. *)
Theorem Client_SignedCall_identifier_is_1 (c : Client.Client) (method : string)
    (params : list Value) (keyType : string) (w : World) (priv : PrivateKey) :
  Client.AccountName c ≠ "" →
  keyType ∈ [Consts.OWNER_KEY; Consts.ACTIVE_KEY; Consts.POSTING_KEY; Consts.MEMO_KEY] →
  Client.Wifs c !! keyType = Some priv →
  let run := Client.SignedCall c method params keyType w in
  (API.validateTransportForSignedCall (Client.GetAPI c) = None →
     (∃ evs, run.2 = w ++ EvRpcSign (mkRpcRequest method params 1)
                            (Client.AccountName c) [ToWif priv] :: evs) ∧
     identifiers run.2 = identifiers w ++ [1]) ∧
  (API.validateTransportForSignedCall (Client.GetAPI c) ≠ None →
     run = (Err (New "signed calls can only be made when using HTTP transport"), w)).
Proof.
  intros Hname Hrole%checkKeyType_roles Hkey. cbn zeta.
  rewrite (Client_SignedCall_past_checks c method params keyType w priv) by done.
  cbn zeta. set (a := API.mkAPI (Client.Url c) (Client.MaxRetry c) 0).
  change (Client.GetAPI c) with a.
  split.
  - intros Hv.
    destruct (SignedCall_accepted a method params (Client.AccountName c) (ToWif priv) w Hv)
      as (r & evs & Hrun & Hevs).
    cbn zeta in Hrun, Hevs. change (wrap_int (API.seqNo a + 1)) with 1 in Hrun, Hevs.
    cbn [API.seqNo] in Hrun, Hevs.
    rewrite Hrun. cbn [fst snd]. split; [by exists evs|].
    rewrite identifiers_app. f_equal.
    destruct Hevs as [-> | (? & _ & ->)]; reflexivity.
  - intros Hv.
    destruct (API.validateTransportForSignedCall a) as [e|] eqn:Hve; [|done].
    rewrite (SignedCall_rejected a _ _ _ _ w e Hve). cbn [fst snd].
    pose proof Hve as Hve'. unfold API.validateTransportForSignedCall in Hve'.
    destruct (_ && _); [by injection Hve' as <- | discriminate].
Qed.

End ClientKeyProperties.

(* ===================================================================== *)
(** ** Further properties of broadcast/broadcast.go and auth/auth.go *)
(* ===================================================================== *)

Section SendProperties.
Context `{Externals}.

Lemma API_GetDynamicGlobalProperties_Ok (a : API.API) (w w1 : World)
    (dgp : DynamicGlobalProperties) :
  API.GetDynamicGlobalProperties a w = (Ok dgp, w1) →
  w1 = w ++ [EvHttp (API.url a)
               (Some ("condenser_api.get_dynamic_global_properties", []))].
Proof.
  unfold API.GetDynamicGlobalProperties, jsonrpc2.BuildSendData, jsonrpc2.Send,
    jsonrpc2.NewClient.
  cbn [jsonrpc2.Url jsonrpc2.SendData].
  destruct (jsonrpc2_encode _ _); [discriminate|].
  destruct (jsonrpc2_post _ _ _) as [rpcResponse|err]; [|discriminate].
  destruct (Error rpcResponse); [discriminate|].
  destruct (json_Marshal _); [|discriminate].
  by intros [= _ <-].
Qed.

Lemma API_GetBlock_Ok (a : API.API) (blockNum : Z) (w w1 : World) (block : ApiBlock) :
  API.GetBlock a blockNum w = (Ok block, w1) →
  w1 = w ++ [EvHttp (API.url a) (Some ("condenser_api.get_block", [VInt blockNum]))].
Proof.
  unfold API.GetBlock, jsonrpc2.BuildSendData, jsonrpc2.Send, jsonrpc2.NewClient.
  cbn [jsonrpc2.Url jsonrpc2.SendData].
  destruct (jsonrpc2_encode _ _); [discriminate|].
  destruct (jsonrpc2_post _ _ _) as [rpcResponse|err]; [|discriminate].
  destruct (Error rpcResponse); [discriminate|].
  destruct (json_Marshal _); [|discriminate].
  by intros [= _ <-].
Qed.

(** X14.  A prepared transaction carries the operations it was given, in
    the order given, and no signature; the operation list was not empty.
    The last-irreversible revision has by then asked the node two things
    and nothing else: the dynamic global properties, then the block at the
    last irreversible block number they report. *)
Theorem prepareTransaction_carries_operations :
  (∀ (b : Broadcast.Broadcast) (ops : list Value) (w w' : World)
     (tx : SignedTransaction),
     Broadcast.prepareTransaction b ops w = (Ok tx, w') →
     ops ≠ [] ∧ Operations (embedded tx) = ops ∧ Signatures (embedded tx) = []) ∧
  (∀ (b : BroadcastLIB.Broadcast) (ops : list Value) (w w' : World)
     (tx : SignedTransaction),
     BroadcastLIB.prepareTransaction b ops w = (Ok tx, w') →
     ops ≠ [] ∧ Operations (embedded tx) = ops ∧ Signatures (embedded tx) = [] ∧
     ∃ dgp,
       w' = w ++ [EvHttp (API.url (BroadcastLIB.api b))
                    (Some ("condenser_api.get_dynamic_global_properties", []));
                  EvHttp (API.url (BroadcastLIB.api b))
                    (Some ("condenser_api.get_block",
                           [VInt (LastIrreversibleBlockNum dgp)]))]).
Proof.
  split.
  - intros b ops w w' tx Hrun.
    destruct (Broadcast_prepareTransaction_Ok b ops w w' tx Hrun)
      as (dgp & refBlockPrefix & Hops & _ & _ & ->).
    done.
  - intros b ops w w' tx Hrun.
    destruct (BroadcastLIB_prepareTransaction_Ok b ops w w' tx Hrun)
      as (dgp & w1 & block & refBlockPrefix & Hops & Hdgp & Hblock & _ & ->).
    do 3 (split; [done|]). exists dgp.
    apply API_GetDynamicGlobalProperties_Ok in Hdgp.
    apply API_GetBlock_Ok in Hblock. subst. by rewrite <- app_assoc.
Qed.

(** X15.  In both revisions the reference block number of a prepared
    transaction fits in 16 bits, and its expiration is set, 600 seconds
    (in nanoseconds) after the clock reading taken once the node has
    answered. *)
Theorem prepareTransaction_field_bounds :
  (∀ (b : Broadcast.Broadcast) (ops : list Value) (w w' : World)
     (tx : SignedTransaction),
     Broadcast.prepareTransaction b ops w = (Ok tx, w') →
     0 ≤ RefBlockNum (embedded tx) < 65536 ∧
     ∃ t, Expiration (embedded tx) = Some t ∧ instant t = clock w' + 600000000000) ∧
  (∀ (b : BroadcastLIB.Broadcast) (ops : list Value) (w w' : World)
     (tx : SignedTransaction),
     BroadcastLIB.prepareTransaction b ops w = (Ok tx, w') →
     0 ≤ RefBlockNum (embedded tx) < 65536 ∧
     ∃ t, Expiration (embedded tx) = Some t ∧ instant t = clock w' + 600000000000).
Proof.
  assert (Hland : ∀ x, 0 ≤ Z.land x 0xFFFF < 65536).
  { intros x. rewrite <- low16. unfold wrap_uint16.
    apply (Z.mod_pos_bound x (2 ^ 16)). lia. }
  split.
  - intros b ops w w' tx Hrun.
    destruct (Broadcast_prepareTransaction_Ok b ops w w' tx Hrun)
      as (dgp & refBlockPrefix & _ & _ & _ & ->).
    cbn. split; [apply Hland | eauto].
  - intros b ops w w' tx Hrun.
    destruct (BroadcastLIB_prepareTransaction_Ok b ops w w' tx Hrun)
      as (dgp & w1 & block & refBlockPrefix & _ & _ & _ & _ & ->).
    cbn. split; [apply Hland | eauto].
Qed.

(** The three key loops are the same loop. *)
Lemma decodeKeys_agree (visit : list (string * string)) :
  ∀ privKeyObjs,
  BroadcastLIB.decodeKeys visit privKeyObjs = Broadcast.decodeKeys visit privKeyObjs ∧
  Auth.decodeKeys visit privKeyObjs = Broadcast.decodeKeys visit privKeyObjs.
Proof.
  induction visit as [|[name wifStr] visit IH]; intros privKeyObjs; [done|].
  cbn. destruct (FromWif wifStr); [apply IH | done].
Qed.

(** The key loop stops at the first entry, in the order of the visit,
    whose WIF does not decode. *)
Lemma decodeKeys_first_undecodable (good rest : list (string * string))
    (name wifStr : string) (err : error) :
  Forall decodable good →
  FromWif wifStr = Err err →
  ∀ privKeyObjs,
  Broadcast.decodeKeys (good ++ (name, wifStr) :: rest) privKeyObjs =
    Err (Wrap err "failed to decode WIF").
Proof.
  intros Hgood Hbad. induction Hgood as [|[n x] good [k Hk] _ IH]; intros privKeyObjs.
  - cbn. by rewrite Hbad.
  - cbn in Hk |- *. rewrite Hk. apply IH.
Qed.

(** The key loop reads the WIFs and not the names they are stored under. *)
Lemma decodeKeys_reads_WIFs (visit : list (string * string)) :
  ∀ visit' privKeyObjs, visit.*2 = visit'.*2 →
  Broadcast.decodeKeys visit privKeyObjs = Broadcast.decodeKeys visit' privKeyObjs.
Proof.
  induction visit as [|[n x] visit IH]; intros [|[n' x'] visit'] privKeyObjs Heq;
    try discriminate; [done|].
  injection Heq as -> Heq. cbn. destruct (FromWif x'); [by apply IH | done].
Qed.

(** An error of the key loop is a wrapped decoder error. *)
Lemma decodeKeys_error (visit : list (string * string)) :
  ∀ privKeyObjs err,
  Broadcast.decodeKeys visit privKeyObjs = Err err →
  ∃ e, err = Wrap e "failed to decode WIF".
Proof.
  induction visit as [|[name wifStr] visit IH]; intros privKeyObjs err; [discriminate|].
  cbn. destruct (FromWif wifStr) as [privKey|e]; [apply IH|].
  intros [= <-]. eauto.
Qed.

(** X16.  [Send] without operations fails at once, in both revisions: the
    error is "no operations provided" wrapped as a preparation failure,
    and nothing was asked of the node, decoded or signed.  No other failure
    of [Send] gives this error: when [Send] returns it, the operation list
    was empty. *)
Theorem Send_without_operations (ops : list Value) (privKeys : gmap string string)
    (visit : list (string * string)) (w : World) :
  let failure :=
    Wrap (New "no operations provided") "failed to prepare transaction" in
  (∀ b : Broadcast.Broadcast,
     (ops = [] → Broadcast.Send b ops privKeys visit w = (Err failure, w)) ∧
     ((Broadcast.Send b ops privKeys visit w).1 = Err failure → ops = [])) ∧
  (∀ b : BroadcastLIB.Broadcast,
     (ops = [] → BroadcastLIB.Send b ops privKeys visit w = ((Err failure, b), w)) ∧
     ((BroadcastLIB.Send b ops privKeys visit w).1.1 = Err failure → ops = [])).
Proof.
  cbn zeta. split.
  - intros b. split; [by intros ->|].
    destruct ops as [|op ops]; [done|]. intros Hrun. exfalso. revert Hrun.
    unfold Broadcast.Send.
    destruct (Broadcast.prepareTransaction b (op :: ops) w) as [[tx0|e] w0] eqn:Hprep.
    + destruct (Broadcast.decodeKeys visit []) as [keys|e] eqn:Hkeys.
      * repeat (case_match; cbn [fst snd]); discriminate.
      * apply decodeKeys_error in Hkeys as [e' ->]. discriminate.
    + unfold Broadcast.prepareTransaction in Hprep. cbn [length] in Hprep.
      rewrite decide_False in Hprep by done.
      repeat case_match; simplify_eq; discriminate.
  - intros b. split; [by intros ->|].
    destruct ops as [|op ops]; [done|]. intros Hrun. exfalso. revert Hrun.
    unfold BroadcastLIB.Send.
    destruct (BroadcastLIB.prepareTransaction b (op :: ops) w) as [[tx0|e] w0] eqn:Hprep.
    + destruct (BroadcastLIB.debugDump tx0) as [e|] eqn:Hdebug.
      { unfold BroadcastLIB.debugDump in Hdebug.
        repeat case_match; simplify_eq; discriminate. }
      destruct (BroadcastLIB.decodeKeys visit []) as [keys|e] eqn:Hkeys.
      * repeat (case_match; cbn [fst snd]); discriminate.
      * destruct (decodeKeys_agree visit []) as [Hsame _]. rewrite Hsame in Hkeys.
        apply decodeKeys_error in Hkeys as [e' ->]. discriminate.
    + unfold BroadcastLIB.prepareTransaction in Hprep. cbn [length] in Hprep.
      rewrite decide_False in Hprep by done.
      repeat case_match; simplify_eq; discriminate.
Qed.

(** X17.  A key that does not decode stops [Send] before anything is
    signed or broadcast: the result is the decoder's error for the first
    such key in the order of the visit, wrapped as "failed to decode WIF",
    and the world is the one the preparation left. *)
Theorem Send_undecodable_key_never_broadcasts (ops : list Value)
    (privKeys : gmap string string) (good rest : list (string * string))
    (name wifStr : string) (err : error) (w : World) :
  let visit := good ++ (name, wifStr) :: rest in
  Forall decodable good →
  FromWif wifStr = Err err →
  (∀ (b : Broadcast.Broadcast) (tx0 : SignedTransaction) (w0 : World),
     Broadcast.prepareTransaction b ops w = (Ok tx0, w0) →
     Broadcast.Send b ops privKeys visit w =
       (Err (Wrap err "failed to decode WIF"), w0)) ∧
  (∀ (b : BroadcastLIB.Broadcast) (tx0 : SignedTransaction) (w0 : World),
     BroadcastLIB.prepareTransaction b ops w = (Ok tx0, w0) →
     Getenv "DEBUG" = "" →
     BroadcastLIB.Send b ops privKeys visit w =
       ((Err (Wrap err "failed to decode WIF"), b), w0)).
Proof.
  cbn zeta. intros Hgood Hbad. split.
  - intros b tx0 w0 Hprep. unfold Broadcast.Send. rewrite Hprep.
    by rewrite (decodeKeys_first_undecodable good rest name wifStr err).
  - intros b tx0 w0 Hprep Hdebug. unfold BroadcastLIB.Send. rewrite Hprep.
    unfold BroadcastLIB.debugDump. rewrite decide_True by done.
    destruct (decodeKeys_agree (good ++ (name, wifStr) :: rest) []) as [-> _].
    by rewrite (decodeKeys_first_undecodable good rest name wifStr err).
Qed.

(** X18.  [Send] posts the broadcast request at most once, as its last
    step, and only for a transaction that every key of the visit signed:
    whatever the outcome, the world it leaves is the one the preparation
    left, or that world followed by the one broadcast request for the
    prepared transaction as [tx.Sign] returned it. *)
Theorem Send_broadcasts_once_after_signing (ops : list Value)
    (privKeys : gmap string string) (visit : list (string * string)) (w : World) :
  (∀ (c : Client.Client) (url : string),
     let b := Broadcast.NewBroadcast (Broadcast.Client_as_ClientInterface c) url in
     let w0 := (Broadcast.prepareTransaction b ops w).2 in
     let w' := (Broadcast.Send b ops privKeys visit w).2 in
     w' = w0 ∨
     ∃ tx0 keys tx,
       (Broadcast.prepareTransaction b ops w).1 = Ok tx0 ∧
       Broadcast.decodeKeys visit [] = Ok keys ∧
       tx_Sign tx0 keys SteemChain = Ok tx ∧
       w' = w0 ++ [broadcast_request (Client.Url c) tx]) ∧
  (∀ b : BroadcastLIB.Broadcast,
     let w0 := (BroadcastLIB.prepareTransaction b ops w).2 in
     let w' := (BroadcastLIB.Send b ops privKeys visit w).2 in
     w' = w0 ∨
     ∃ tx0 keys tx,
       (BroadcastLIB.prepareTransaction b ops w).1 = Ok tx0 ∧
       BroadcastLIB.decodeKeys visit [] = Ok keys ∧
       tx_Sign tx0 keys SteemChain = Ok tx ∧
       w' = w0 ++ [broadcast_request (jsonrpc2.Url (BroadcastLIB.rpc b)) tx]).
Proof.
  split.
  - intros c url. cbn zeta. unfold Broadcast.Send.
    destruct (Broadcast.prepareTransaction _ ops w) as [[tx0|err] w0]; cbn [fst snd];
      [|by left].
    destruct (Broadcast.decodeKeys visit []) as [keys|err]; cbn [fst snd]; [|by left].
    destruct (tx_Sign tx0 keys SteemChain) as [tx|err] eqn:Hsign; cbn [fst snd];
      [|by left].
    cbn [Broadcast.client Broadcast.NewBroadcast Broadcast.BroadcastSync
         Broadcast.Client_as_ClientInterface].
    unfold Client.BroadcastSync, jsonrpc2.BuildSendData, jsonrpc2.Send,
      Client.GetRpcClient, jsonrpc2.NewClient.
    cbn [jsonrpc2.Url jsonrpc2.SendData].
    destruct (jsonrpc2_encode _ _); cbn [fst snd]; [by left|].
    right. exists tx0, keys, tx. do 3 (split; [done|]).
    destruct (jsonrpc2_post _ _ _) as [rpcResponse|err]; cbn [fst snd]; [|done].
    destruct (Error rpcResponse); cbn [fst snd]; [done|].
    by destruct (json_Marshal _).
  - intros b. cbn zeta. unfold BroadcastLIB.Send.
    destruct (BroadcastLIB.prepareTransaction b ops w) as [[tx0|err] w0]; cbn [fst snd];
      [|by left].
    destruct (BroadcastLIB.debugDump tx0); cbn [fst snd]; [by left|].
    destruct (BroadcastLIB.decodeKeys visit []) as [keys|err]; cbn [fst snd]; [|by left].
    destruct (tx_Sign tx0 keys SteemChain) as [tx|err] eqn:Hsign; cbn [fst snd];
      [|by left].
    unfold BroadcastLIB.BroadcastSync, jsonrpc2.BuildSendData, jsonrpc2.Send.
    cbn [jsonrpc2.Url jsonrpc2.SendData].
    destruct (jsonrpc2_encode _ _); cbn [fst snd]; [by left|].
    right. exists tx0, keys, tx. do 3 (split; [done|]).
    destruct (jsonrpc2_post _ _ _) as [rpcResponse|err]; cbn [fst snd]; [|done].
    destruct (Error rpcResponse); cbn [fst snd]; [done|].
    by destruct (json_Marshal _).
Qed.

(** X19.  [Send] reads the WIFs of the key map and never the names they
    are stored under: two key maps visited with the same WIFs in the same
    order give the same run, in both revisions. *)
Theorem Send_reads_only_the_WIFs (ops : list Value)
    (privKeys privKeys' : gmap string string) (visit visit' : list (string * string))
    (w : World) :
  visit.*2 = visit'.*2 →
  (∀ b : Broadcast.Broadcast,
     Broadcast.Send b ops privKeys visit w = Broadcast.Send b ops privKeys' visit' w) ∧
  (∀ b : BroadcastLIB.Broadcast,
     BroadcastLIB.Send b ops privKeys visit w =
       BroadcastLIB.Send b ops privKeys' visit' w).
Proof.
  intros Heq. split.
  - intros b. unfold Broadcast.Send.
    by rewrite (decodeKeys_reads_WIFs visit visit' [] Heq).
  - intros b. unfold BroadcastLIB.Send.
    destruct (decodeKeys_agree visit []) as [-> _].
    destruct (decodeKeys_agree visit' []) as [-> _].
    by rewrite (decodeKeys_reads_WIFs visit visit' [] Heq).
Qed.

(** X20.  A successful [SendWith] broadcasts the prepared transaction with
    exactly one signature, that of the key the WIF decodes to, in both
    revisions. *)
Theorem SendWith_signs_once (op : Value) (privKeyWif : string) (w w' : World)
    (r : string) :
  (∀ (c : Client.Client) (url : string),
     let b := Broadcast.NewBroadcast (Broadcast.Client_as_ClientInterface c) url in
     Broadcast.SendWith b op privKeyWif w = (Ok r, w') →
     ∃ privKey tx0 w0,
       FromWif privKeyWif = Ok privKey ∧
       Broadcast.prepareTransaction b [op] w = (Ok tx0, w0) ∧
       w' = w0 ++ [broadcast_request (Client.Url c)
                     (with_signatures tx0
                        [signature SteemChain (embedded tx0) privKey])]) ∧
  (∀ b b' : BroadcastLIB.Broadcast,
     BroadcastLIB.SendWith b op privKeyWif w = ((Ok r, b'), w') →
     ∃ privKey tx0 w0,
       FromWif privKeyWif = Ok privKey ∧
       BroadcastLIB.prepareTransaction b [op] w = (Ok tx0, w0) ∧
       w' = w0 ++ [broadcast_request (jsonrpc2.Url (BroadcastLIB.rpc b))
                     (with_signatures tx0
                        [signature SteemChain (embedded tx0) privKey])]).
Proof.
  split.
  - intros c url b Hrun. unfold Broadcast.SendWith in Hrun.
    destruct (Broadcast_Send_Ok c url [op] _ _ w w' r Hrun) as (tx0 & w0 & Hprep & Hw).
    destruct (FromWif privKeyWif) as [privKey|err] eqn:Hkey.
    + exists privKey, tx0, w0. do 2 (split; [done|]).
      rewrite Hw. unfold decoded. cbn. by rewrite Hkey.
    + unfold Broadcast.Send in Hrun. fold b in Hprep. rewrite Hprep in Hrun.
      cbn in Hrun. rewrite Hkey in Hrun. discriminate.
  - intros b b' Hrun. unfold BroadcastLIB.SendWith in Hrun.
    destruct (BroadcastLIB_Send_Ok b [op] _ _ w w' r b' Hrun) as (tx0 & w0 & Hprep & Hw).
    destruct (FromWif privKeyWif) as [privKey|err] eqn:Hkey.
    + exists privKey, tx0, w0. do 2 (split; [done|]).
      rewrite Hw. unfold decoded. cbn. by rewrite Hkey.
    + unfold BroadcastLIB.Send in Hrun. rewrite Hprep in Hrun.
      destruct (BroadcastLIB.debugDump tx0); [discriminate|].
      cbn in Hrun. rewrite Hkey in Hrun. discriminate.
Qed.

(** X21.  [CustomJson] is [SendWith] on the custom_json operation whose two
    account lists are the given lists in increasing order: each is sorted
    and holds the accounts given, as often as given; the id and the JSON
    text go through as they are.  Whether the key is filed under "active"
    or "posting" changes nothing. *)
Theorem CustomJson_sends_sorted_accounts (b : BroadcastLIB.Broadcast)
    (requiredAuths requiredPostingAuths : list string) (id json privKeyWif : string)
    (w : World) :
  ∃ auths postingAuths,
    Sorted String.le auths ∧ auths ≡ₚ requiredAuths ∧
    Sorted String.le postingAuths ∧ postingAuths ≡ₚ requiredPostingAuths ∧
    BroadcastLIB.CustomJson b requiredAuths requiredPostingAuths id json privKeyWif w =
      BroadcastLIB.SendWith b
        (BroadcastLIB.CustomJSONOperation auths postingAuths id json) privKeyWif w.
Proof.
  exists (BroadcastLIB.sort_Strings requiredAuths),
         (BroadcastLIB.sort_Strings requiredPostingAuths).
  unfold BroadcastLIB.sort_Strings.
  split; [apply Sorted_merge_sort, _|]. split; [apply merge_sort_Permutation|].
  split; [apply Sorted_merge_sort, _|]. split; [apply merge_sort_Permutation|].
  unfold BroadcastLIB.CustomJson, BroadcastLIB.SendWith, BroadcastLIB.Send.
  destruct (BroadcastLIB.prepareTransaction b _ w) as [[tx0|err] w0]; [|done].
  destruct (BroadcastLIB.debugDump tx0); [done|].
  destruct (decodeKeys_agree [(if decide (0 < length requiredAuths)%nat
                               then "active" else "posting", privKeyWif)] [])
    as [-> _].
  destruct (decodeKeys_agree [("key", privKeyWif)] []) as [-> _].
  by rewrite (decodeKeys_reads_WIFs _ [("key", privKeyWif)] []).
Qed.

(** X22.  [CustomJson] does not depend on the order in which the accounts
    are listed: two calls whose account lists hold the same accounts give
    the same run. *)
Theorem CustomJson_order_of_accounts (b : BroadcastLIB.Broadcast)
    (requiredAuths requiredAuths' requiredPostingAuths requiredPostingAuths' : list string)
    (id json privKeyWif : string) (w : World) :
  requiredAuths ≡ₚ requiredAuths' →
  requiredPostingAuths ≡ₚ requiredPostingAuths' →
  BroadcastLIB.CustomJson b requiredAuths requiredPostingAuths id json privKeyWif w =
  BroadcastLIB.CustomJson b requiredAuths' requiredPostingAuths' id json privKeyWif w.
Proof.
  intros Hauths Hposting.
  assert (Hsort : ∀ l l', l ≡ₚ l' →
            BroadcastLIB.sort_Strings l = BroadcastLIB.sort_Strings l').
  { intros l l' Hperm. unfold BroadcastLIB.sort_Strings.
    apply (Sorted_unique String.le); [apply Sorted_merge_sort, _..|].
    by rewrite !merge_sort_Permutation. }
  unfold BroadcastLIB.CustomJson.
  rewrite (Hsort _ _ Hauths), (Hsort _ _ Hposting).
  by rewrite (Permutation_length Hauths).
Qed.


End SendProperties.

(* ===================================================================== *)
(** ** The further properties against the sample node *)
(* ===================================================================== *)

(** X2 on the invalid key of api_test.go. *)
Lemma SignedCall_sign_failure_posts_nothing_witness :
  let E := Sample.externals Sample.node in
  let params := [VSlice [VString "testuser"]] in
  API.SignedCall (H := E) (API.NewAPI Sample.endpoint) "condenser_api.get_accounts"
    params "testuser" "invalid-key" [] =
  (Err (Wrapf (New "invalid WIF") "failed to sign request for method %s"
          [VString "condenser_api.get_accounts"]),
   API.mkAPI Sample.endpoint 5 1,
   [EvRpcSign (mkRpcRequest "condenser_api.get_accounts" params 1)
      "testuser" ["invalid-key"]]).
Proof.
  cbn zeta.
  apply (SignedCall_sign_failure_posts_nothing (H := Sample.externals Sample.node)
           (API.NewAPI Sample.endpoint) "condenser_api.get_accounts"
           [VSlice [VString "testuser"]] "testuser" "invalid-key" []
           (New "invalid WIF")); reflexivity.
Defined.

(** X3 on the signed call of api_test.go, answered by the sample node. *)
Lemma SignedCall_Ok_is_node_answer_witness :
  let E := Sample.externals Sample.node in
  let params := [VSlice [VString "testuser"]] in
  let key := "5JLw5dgQAx6rhZEgNN5C2ds1V47RweGshynFSWFbaMohsYsBvE8" in
  let request := mkRpcRequest "condenser_api.get_accounts" params 1 in
  let run :=
    API.SignedCall (H := E) (API.NewAPI Sample.endpoint) "condenser_api.get_accounts"
      params "testuser" key [] in
  ∃ r signedRequest,
    run.1.1 = Ok r ∧
    Error r = None ∧
    rpc_Sign (Externals := E) [] request "testuser" [key] = Ok signedRequest ∧
    run.2 = [EvRpcSign request "testuser" [key];
             EvHttp Sample.endpoint
               (Some ("condenser_api.get_accounts",
                      [VMap {[ "__signed" := Signed (SignedReqParams signedRequest) ]}]))].
Proof.
  cbn zeta.
  set (E := Sample.externals Sample.node).
  set (params := [VSlice [VString "testuser"]]).
  set (key := "5JLw5dgQAx6rhZEgNN5C2ds1V47RweGshynFSWFbaMohsYsBvE8").
  destruct (API.SignedCall (H := E) (API.NewAPI Sample.endpoint)
              "condenser_api.get_accounts" params "testuser" key [])
    as [[r a'] w'] eqn:Hrun.
  pose proof Hrun as Hvalue. vm_compute in Hvalue.
  destruct r as [r|err]; [|discriminate Hvalue].
  destruct (SignedCall_Ok_is_node_answer (H := E) (API.NewAPI Sample.endpoint)
              "condenser_api.get_accounts" params "testuser" key [] r a' w' Hrun)
    as (signedRequest & Hsign & _ & Herror & _ & Hw).
  exists r, signedRequest. cbn [fst snd].
  split; [reflexivity|]. split; [exact Herror|]. split; [exact Hsign | exact Hw].
Defined.

(** X7 on the node that never serves block 10000001, after ten rounds of
    retries, the two messages arriving in reverse order. *)
Lemma API_GetBlocks_waits_for_unserved_block_witness :
  let E := Sample.externals Sample.node in
  API.GetBlocks (H := E) 10000000 10000003
    (reverse (API.sent (H := E) Sample.fetch_gap 10 10000000 10000003)) = Blocked.
Proof.
  cbn zeta.
  assert (Hin : 10000000 ≤ 10000001 < 10000003) by lia.
  apply (API_GetBlocks_waits_for_unserved_block (H := Sample.externals Sample.node)
           Sample.fetch_gap 10000000 10000003 10000001 Hin
           (λ k, ex_intro _ (New "timeout") eq_refl) 10%nat).
  apply reverse_Permutation.
Defined.

(** X8 on the node that serves every block at the third attempt, the
    messages arriving in reverse order. *)
Lemma GetBlocks_returns_what_was_served_witness :
  let E := Sample.externals Sample.node in
  let c := Client.mkClient (H := E) Sample.endpoint 5 "" ∅ in
  let served :=
    [Some (Blocks.mkWrapBlock (H := E) 10000000 (Some "block"));
     Some (Blocks.mkWrapBlock (H := E) 10000001 (Some "block"));
     Some (Blocks.mkWrapBlock (H := E) 10000002 (Some "block"))] in
  Client.GetBlocks 10000000 10000003
    (reverse (Client.sent Sample.fetch_third c 10000000 10000003)) =
    Returned (served, None) ∧
  ∃ fuel0 : nat,
    API.GetBlocks 10000000 10000003
      (reverse (API.sent (H := E) Sample.fetch_third fuel0 10000000 10000003)) =
      Returned (served, None).
Proof.
  cbn zeta.
  set (E := Sample.externals Sample.node).
  assert (Hlt : 10000000 < 10000003) by reflexivity.
  destruct (GetBlocks_returns_what_was_served (H := E) Sample.fetch_third
              10000000 10000003 (λ _, 2%nat) (λ _, "block") Hlt)
    as [Hclient [fuel0 Hapi]].
  { intros i _. split; [reflexivity|].
    intros j Hj. destruct j as [|[|j]]; [by eexists.. | lia]. }
  split.
  - apply (Hclient (Client.mkClient (H := E) Sample.endpoint 5 "" ∅));
      [intros i _; cbn; lia | apply reverse_Permutation].
  - exists fuel0. apply (Hapi fuel0); [lia | apply reverse_Permutation].
Defined.

(** X9 on a client with no retry budget. *)
Lemma Client_GetBlocks_without_budget_witness :
  let E := Sample.externals Sample.node in
  let c := Client.mkClient (H := E) Sample.endpoint 0 "" ∅ in
  Client.GetBlocks 10000000 10000002
    (reverse (Client.sent Sample.fetch_third c 10000000 10000002)) =
  Returned ([Some (Blocks.mkWrapBlock (H := E) 10000000 None);
             Some (Blocks.mkWrapBlock (H := E) 10000001 None)], None).
Proof.
  cbn zeta.
  apply (Client_GetBlocks_without_budget (H := Sample.externals Sample.node)
           Sample.fetch_third
           (Client.mkClient (H := Sample.externals Sample.node) Sample.endpoint 0 "" ∅));
    [reflexivity | reflexivity | apply reverse_Permutation].
Defined.

(** X11 on the active key of client/client_test.go, imported into a fresh
    client. *)
Lemma ImportWif_stores_key_witness :
  let E := Sample.externals Sample.node in
  let c := SDK.GetClient (H := E) Sample.endpoint in
  let c' := (Client.ImportWif c "active" Sample.active_wif).2 in
  (Client.ImportWif c "active" Sample.active_wif).1 = None ∧
  Client.Wifs c' !! "active" = Some Sample.active_wif ∧
  Client.Wifs c' !! "posting" = None ∧
  Client.Url c' = Sample.endpoint ∧
  Client.MaxRetry c' = 5.
Proof.
  cbn zeta.
  set (E := Sample.externals Sample.node).
  set (c := SDK.GetClient (H := E) Sample.endpoint).
  destruct (ImportWif_stores_key (H := E) c
              (Client.ImportWif c "active" Sample.active_wif).2
              "active" Sample.active_wif)
    as (priv & Hpriv & _ & Hkey & Hother & Hurl & Hretry & _); [reflexivity|].
  injection Hpriv as <-.
  split; [reflexivity|]. split; [exact Hkey|].
  split; [by rewrite Hother | by rewrite Hurl, Hretry].
Defined.

(** X12 on a client of account alice: the imported active key signs the
    next call. *)
Lemma ImportWif_then_SignedCall_witness :
  let E := Sample.externals Sample.node in
  let c := Client.mkClient (H := E) Sample.endpoint 5 "alice" ∅ in
  let c' := (Client.ImportWif c "active" Sample.active_wif).2 in
  let run := API.SignedCall (H := E) (API.mkAPI Sample.endpoint 5 0)
               "condenser_api.get_accounts" [] "alice" Sample.active_wif [] in
  Client.SignedCall c' "condenser_api.get_accounts" [] "active" [] = (run.1.1, run.2).
Proof.
  cbn zeta.
  set (E := Sample.externals Sample.node).
  set (c := Client.mkClient (H := E) Sample.endpoint 5 "alice" ∅).
  destruct (ImportWif_then_SignedCall (H := E) c
              (Client.ImportWif c "active" Sample.active_wif).2
              "active" Sample.active_wif "condenser_api.get_accounts" [] [])
    as (priv & Hpriv & Hcall); [reflexivity | discriminate |].
  injection Hpriv as <-. exact Hcall.
Defined.

(** X13 on two signed calls of one client, one after the other: both carry
    the identifier 1. *)
Lemma Client_SignedCall_identifier_is_1_witness :
  let E := Sample.externals Sample.node in
  let c := Client.mkClient (H := E) Sample.endpoint 5 "alice"
             {[ "active" := Sample.active_wif ]} in
  let first := Client.SignedCall c "condenser_api.get_accounts" [] "active" [] in
  let second := Client.SignedCall c "condenser_api.get_accounts" [] "active" first.2 in
  identifiers first.2 = [1] ∧ identifiers second.2 = [1; 1].
Proof.
  cbn zeta.
  set (E := Sample.externals Sample.node).
  set (c := Client.mkClient (H := E) Sample.endpoint 5 "alice"
              {[ "active" := Sample.active_wif ]}).
  assert (Hrole : "active" ∈ [Consts.OWNER_KEY; Consts.ACTIVE_KEY;
                              Consts.POSTING_KEY; Consts.MEMO_KEY]).
  { apply list_elem_of_further, list_elem_of_here. }
  assert (Hcall : ∀ w,
            identifiers (Client.SignedCall c "condenser_api.get_accounts" []
                           "active" w).2 = identifiers w ++ [1]).
  { intros w.
    destruct (Client_SignedCall_identifier_is_1 (H := E) c
                "condenser_api.get_accounts" [] "active" w Sample.active_wif)
      as [Haccepted _]; [discriminate | exact Hrole | reflexivity |].
    apply Haccepted. reflexivity. }
  split; [apply (Hcall [])|]. rewrite Hcall, (Hcall []). reflexivity.
Defined.

(** X14 on the vote of the spec's example, in the last-irreversible
    revision. *)
Lemma prepareTransaction_carries_operations_witness :
  let E := Sample.externals Sample.node in
  let b := BroadcastLIB.NewBroadcast Sample.endpoint in
  let run := BroadcastLIB.prepareTransaction (H := E) b [Sample.vote] [] in
  ∃ tx, run.1 = Ok tx ∧
        Operations (embedded tx) = [Sample.vote] ∧
        Signatures (embedded tx) = [] ∧
        run.2 = [EvHttp Sample.endpoint
                   (Some ("condenser_api.get_dynamic_global_properties", []));
                 EvHttp Sample.endpoint
                   (Some ("condenser_api.get_block", [VInt 69990]))].
Proof.
  cbn zeta.
  set (E := Sample.externals Sample.node).
  set (b := BroadcastLIB.NewBroadcast Sample.endpoint).
  destruct (prepareTransaction_carries_operations (H := E)) as [_ Hlib].
  destruct (BroadcastLIB.prepareTransaction (H := E) b [Sample.vote] [])
    as [r w'] eqn:Hrun.
  pose proof Hrun as Hvalue. vm_compute in Hvalue.
  destruct r as [tx|err]; [|discriminate Hvalue].
  destruct (Hlib b [Sample.vote] [] w' tx Hrun) as (_ & Hops & Hsigs & _).
  exists tx. cbn [fst snd]. do 3 (split; [done|]).
  by injection Hvalue as _ <-.
Defined.

(** X15 on the same vote, in both revisions. *)
Lemma prepareTransaction_field_bounds_witness :
  let E := Sample.externals Sample.node in
  let c := Client.mkClient (H := E) Sample.endpoint 5 "" ∅ in
  let b := Broadcast.NewBroadcast (Broadcast.Client_as_ClientInterface c) Sample.endpoint in
  let b' := BroadcastLIB.NewBroadcast Sample.endpoint in
  (∃ tx t, (Broadcast.prepareTransaction b [Sample.vote] []).1 = Ok tx ∧
           0 ≤ RefBlockNum (embedded tx) < 65536 ∧
           Expiration (embedded tx) = Some t ∧
           instant t = 1700000600000000000) ∧
  (∃ tx t, (BroadcastLIB.prepareTransaction (H := E) b' [Sample.vote] []).1 = Ok tx ∧
           0 ≤ RefBlockNum (embedded tx) < 65536 ∧
           Expiration (embedded tx) = Some t ∧
           instant t = 1700000600000000000).
Proof.
  cbn zeta.
  set (E := Sample.externals Sample.node).
  set (c := Client.mkClient (H := E) Sample.endpoint 5 "" ∅).
  set (b := Broadcast.NewBroadcast (Broadcast.Client_as_ClientInterface c) Sample.endpoint).
  set (b' := BroadcastLIB.NewBroadcast Sample.endpoint).
  destruct (prepareTransaction_field_bounds (H := E)) as [Hhead Hlib].
  split.
  - destruct (Broadcast.prepareTransaction b [Sample.vote] []) as [r w'] eqn:Hrun.
    pose proof Hrun as Hvalue. vm_compute in Hvalue.
    destruct r as [tx|err]; [|discriminate Hvalue].
    destruct (Hhead b [Sample.vote] [] w' tx Hrun) as (Hnum & t & Hexp & Ht).
    exists tx, t. cbn [fst snd]. do 3 (split; [done|]). rewrite Ht. reflexivity.
  - destruct (BroadcastLIB.prepareTransaction (H := E) b' [Sample.vote] [])
      as [r w'] eqn:Hrun.
    pose proof Hrun as Hvalue. vm_compute in Hvalue.
    destruct r as [tx|err]; [|discriminate Hvalue].
    destruct (Hlib b' [Sample.vote] [] w' tx Hrun) as (Hnum & t & Hexp & Ht).
    exists tx, t. cbn [fst snd]. do 3 (split; [done|]). rewrite Ht. reflexivity.
Defined.

(** X17 with the active key followed by a string that is no WIF. *)
Lemma Send_undecodable_key_never_broadcasts_witness :
  let E := Sample.externals Sample.node in
  let b := BroadcastLIB.NewBroadcast Sample.endpoint in
  let privKeys : gmap string string :=
    {[ "active" := Sample.active_wif; "posting" := "not-a-wif" ]} in
  let visit := [("active", Sample.active_wif); ("posting", "not-a-wif")] in
  BroadcastLIB.Send (H := E) b [Sample.vote] privKeys visit [] =
    ((Err (Wrap (New "invalid WIF") "failed to decode WIF"), b),
     (BroadcastLIB.prepareTransaction (H := E) b [Sample.vote] []).2).
Proof.
  cbn zeta.
  set (E := Sample.externals Sample.node).
  set (b := BroadcastLIB.NewBroadcast Sample.endpoint).
  destruct (Send_undecodable_key_never_broadcasts (H := E) [Sample.vote]
              {[ "active" := Sample.active_wif; "posting" := "not-a-wif" ]}
              [("active", Sample.active_wif)] [] "posting" "not-a-wif"
              (New "invalid WIF") [])
    as [_ Hlib].
  - constructor; [|constructor]. by exists Sample.active_wif.
  - reflexivity.
  - destruct (BroadcastLIB.prepareTransaction (H := E) b [Sample.vote] [])
      as [r w0] eqn:Hrun.
    pose proof Hrun as Hvalue. vm_compute in Hvalue.
    destruct r as [tx0|err]; [|discriminate Hvalue].
    exact (Hlib b tx0 w0 Hrun eq_refl).
Defined.

(** X19 with the active key filed under "active" and under "key". *)
Lemma Send_reads_only_the_WIFs_witness :
  let E := Sample.externals Sample.node in
  let b := BroadcastLIB.NewBroadcast Sample.endpoint in
  BroadcastLIB.Send (H := E) b [Sample.vote] {[ "active" := Sample.active_wif ]}
    [("active", Sample.active_wif)] [] =
  BroadcastLIB.Send (H := E) b [Sample.vote] {[ "key" := Sample.active_wif ]}
    [("key", Sample.active_wif)] [].
Proof.
  cbn zeta.
  apply (Send_reads_only_the_WIFs (H := Sample.externals Sample.node) [Sample.vote]
           {[ "active" := Sample.active_wif ]} {[ "key" := Sample.active_wif ]}
           [("active", Sample.active_wif)] [("key", Sample.active_wif)] []).
  reflexivity.
Defined.

(** X20 on the vote signed with the active key. *)
Lemma SendWith_signs_once_witness :
  let E := Sample.externals Sample.node in
  let b := BroadcastLIB.NewBroadcast Sample.endpoint in
  let prepared := BroadcastLIB.prepareTransaction (H := E) b [Sample.vote] [] in
  ∃ tx0,
    prepared.1 = Ok tx0 ∧
    (BroadcastLIB.SendWith (H := E) b Sample.vote Sample.active_wif []).2 =
      prepared.2 ++
      [broadcast_request Sample.endpoint
         (with_signatures tx0 [Sample.sign_with Sample.active_wif])].
Proof.
  cbn zeta.
  set (E := Sample.externals Sample.node).
  set (b := BroadcastLIB.NewBroadcast Sample.endpoint).
  destruct (BroadcastLIB.SendWith (H := E) b Sample.vote Sample.active_wif [])
    as [[r b'] w'] eqn:Hrun.
  pose proof Hrun as Hvalue. vm_compute in Hvalue.
  destruct r as [r|err]; [|discriminate Hvalue].
  destruct (SendWith_signs_once (H := E) Sample.vote Sample.active_wif [] w' r)
    as [_ Hlib].
  destruct (Hlib b b' Hrun) as (privKey & tx0 & w0 & Hkey & Hprep & Hw).
  injection Hkey as <-.
  exists tx0. rewrite Hprep. cbn [fst snd]. split; [reflexivity | exact Hw].
Defined.

(** X22 on a follow operation with two required accounts, listed in both
    orders. *)
Lemma CustomJson_order_of_accounts_witness :
  let E := Sample.externals Sample.node in
  let b := BroadcastLIB.NewBroadcast Sample.endpoint in
  BroadcastLIB.CustomJson (H := E) b ["bob"; "alice"] [] "follow" "{}"
    Sample.active_wif [] =
  BroadcastLIB.CustomJson (H := E) b ["alice"; "bob"] [] "follow" "{}"
    Sample.active_wif [].
Proof.
  cbn zeta.
  apply (CustomJson_order_of_accounts (H := Sample.externals Sample.node)
           (BroadcastLIB.NewBroadcast Sample.endpoint) ["bob"; "alice"] ["alice"; "bob"]
           [] [] "follow" "{}" Sample.active_wif []).
  - apply Permutation_swap.
  - reflexivity.
Defined.


(** X25 on the node that serves every block at the third attempt: a budget
    of three attempts gets the block, a budget of two does not. *)
Lemma Client_wrapGetBlock_budget_witness :
  let E := Sample.externals Sample.node in
  Client.wrapGetBlock Sample.fetch_third
    (Client.mkClient (H := E) Sample.endpoint 3 "" ∅) 10000000 =
    Some (Blocks.mkWrapBlock 10000000 (Some "block")) ∧
  Client.wrapGetBlock Sample.fetch_third
    (Client.mkClient (H := E) Sample.endpoint 2 "" ∅) 10000000 = None.
Proof.
  cbn zeta.
  set (E := Sample.externals Sample.node).
  assert (Hserved : first_served (H := E) Sample.fetch_third 10000000 2 "block").
  { split; [reflexivity|].
    intros j Hj. destruct j as [|[|j]]; [by eexists.. | lia]. }
  split.
  - apply (Client_wrapGetBlock_budget (H := E) Sample.fetch_third _ 10000000 2 "block"
             Hserved). cbn. lia.
  - apply (Client_wrapGetBlock_budget (H := E) Sample.fetch_third _ 10000000 2 "block"
             Hserved); [reflexivity | cbn; lia].
Defined.

(** X5 on a plain call to the sample node. *)
Lemma Call_posts_params_unchanged_witness :
  let E := Sample.externals Sample.node in
  let params := [VSlice [VString "testuser"]] in
  let run := API.Call (H := E) (API.NewAPI Sample.endpoint) "condenser_api"
               "get_accounts" params [] in
  run.2 = [EvHttp Sample.endpoint (Some ("condenser_api.get_accounts", params))] ∧
  run.1 = Ok (mkRpcResultData None (VString "ok")).
Proof.
  cbn zeta.
  set (E := Sample.externals Sample.node).
  destruct (Call_posts_params_unchanged (H := E) (API.NewAPI Sample.endpoint)
              "condenser_api" "get_accounts" [VSlice [VString "testuser"]] [])
    as [_ Hposted].
  destruct Hposted as [Hworld Hanswer]; [reflexivity|].
  split; [exact Hworld|]. apply Hanswer. by split.
Defined.

(** X6 on an empty range, and on the range [10000000, 10000003) served at
    the third attempt. *)
Lemma GetBlocks_error_only_for_empty_range_witness :
  let E := Sample.externals Sample.node in
  let c := Client.mkClient (H := E) Sample.endpoint 5 "" ∅ in
  API.GetBlocks (H := E) 7 7 [] =
    Returned ([], Some (Errorf "unexpected params {from: %v}, {to: %v}\n"
                               [VInt 7; VInt 7])) ∧
  ∃ blocks,
    Client.GetBlocks 10000000 10000003
      (Client.sent Sample.fetch_third c 10000000 10000003) = Returned (blocks, None) ∧
    length blocks = 3%nat.
Proof.
  cbn zeta.
  set (E := Sample.externals Sample.node).
  set (c := Client.mkClient (H := E) Sample.endpoint 5 "" ∅).
  split.
  - destruct (GetBlocks_error_only_for_empty_range (H := E) 7 7 []) as [Hrefused _].
    apply Hrefused. lia.
  - destruct (GetBlocks_error_only_for_empty_range (H := E) 10000000 10000003
                (Client.sent (H := E) Sample.fetch_third c 10000000 10000003))
      as [_ Hreturned].
    eexists. split; [reflexivity|].
    eapply Hreturned; [lia|]. right. reflexivity.
Defined.

(** X10 on a key type outside the set, and on a string that is no WIF. *)
Lemma ImportWif_failure_changes_nothing_witness :
  let E := Sample.externals Sample.node in
  let c := SDK.GetClient (H := E) Sample.endpoint in
  Client.ImportWif c "admin" Sample.active_wif =
    (Some (New "unexpected keyType when import wif\n"), c) ∧
  Client.ImportWif c "active" "not-a-wif" = (Some (New "invalid WIF"), c).
Proof.
  cbn zeta.
  set (E := Sample.externals Sample.node).
  set (c := SDK.GetClient (H := E) Sample.endpoint).
  split.
  - destruct (ImportWif_failure_changes_nothing (H := E) c "admin" Sample.active_wif)
      as (_ & Hrole & _).
    apply Hrole. intros Hin. rewrite !elem_of_cons, elem_of_nil in Hin.
    destruct Hin as [Heq|[Heq|[Heq|[Heq|[]]]]]; discriminate Heq.
  - destruct (ImportWif_failure_changes_nothing (H := E) c "active" "not-a-wif")
      as (_ & _ & Hwif).
    apply Hwif; [|reflexivity]. apply list_elem_of_further, list_elem_of_here.
Defined.

(** X16 on the sample node, with the two keys of client/client_test.go. *)
Lemma Send_without_operations_witness :
  let E := Sample.externals Sample.node in
  let b := BroadcastLIB.NewBroadcast Sample.endpoint in
  BroadcastLIB.Send (H := E) b [] Sample.two_keys
    [("active", Sample.active_wif); ("posting", Sample.posting_wif)] [] =
  ((Err (Wrap (New "no operations provided") "failed to prepare transaction"), b), []).
Proof.
  cbn zeta.
  destruct (Send_without_operations (H := Sample.externals Sample.node) []
              Sample.two_keys
              [("active", Sample.active_wif); ("posting", Sample.posting_wif)] [])
    as [_ Hlib].
  by apply Hlib.
Defined.
